(** * diar-service/app.py: the speaker-diarization request pipeline

    A shallow embedding of the FastAPI service in [src/diar-service/app.py]:
    upload validation, temp-file staging, engine invocation, result
    normalisation, cleanup, the health endpoint and the start-up hook that
    loads the pipeline and applies the developer tunables.

    Python [float] is IEEE binary64, embedded as Rocq's primitive [float];
    [str] is embedded as [string]; [dict] as stdpp's [gmap]; [set] as
    [gset]. *)

From Stdlib Require Import ZArith String Ascii List Bool Lia Floats DecimalString.
From stdpp Require Import gmap strings list.

Local Open Scope string_scope.

#[local] Set Warnings "-clear-no-such-hyp".

(* ===================================================================== *)
(** ** Python built-ins used by the service *)
(* ===================================================================== *)

Module Py.

(** [x or d] on an optional string: [None] and [""] are both falsy. *)
Definition str_or (x : option string) (d : string) : string :=
  match x with
  | Some (String a s) => String a s
  | _ => d
  end.

(** [s or d] on a plain string. *)
Definition or_default (s d : string) : string :=
  match s with
  | EmptyString => d
  | _ => s
  end.

(** Truthiness of an optional string. *)
Definition truthy (x : option string) : bool :=
  match x with
  | Some (String _ _) => true
  | _ => false
  end.

(** [c.lower()] on one character: only [A]..[Z] move. *)
Definition lower_ascii (c : ascii) : ascii :=
  let n := nat_of_ascii c in
  if (65 <=? n)%nat && (n <=? 90)%nat then ascii_of_nat (n + 32) else c.

(** [s.lower()]. *)
Fixpoint lower (s : string) : string :=
  match s with
  | EmptyString => EmptyString
  | String c s' => String (lower_ascii c) (lower s')
  end.

(** [s.startswith(p)]. *)
Definition startswith (s p : string) : bool := String.prefix p s.

(** [s.rfind(c)] for a one-character needle, scanning from offset [i]:
    the highest index holding [c], or [-1]. *)
Fixpoint rfind_from (c : ascii) (s : string) (i : Z) : Z :=
  match s with
  | EmptyString => (-1)%Z
  | String a s' =>
      let r := rfind_from c s' (i + 1)%Z in
      if (0 <=? r)%Z then r
      else if Ascii.eqb a c then i else (-1)%Z
  end.

Definition rfind (c : ascii) (s : string) : Z := rfind_from c s 0.

(** [p[:i]] and [p[i:]] for [0 <= i]. *)
Definition slice_to (p : string) (i : Z) : string :=
  String.substring 0 (Z.to_nat i) p.

Definition slice_from (p : string) (i : Z) : string :=
  String.substring (Z.to_nat i) (String.length p - Z.to_nat i) p.

(** [p[i:i+1]]. *)
Definition slice1 (p : string) (i : Z) : string :=
  String.substring (Z.to_nat i) 1 p.

(** The [while filenameIndex < dotIndex] loop of [genericpath._splitext]:
    [n] counts the iterations left; [Some] is the early [return]. *)
Fixpoint splitext_loop (p : string) (dotIndex : Z) (n : nat)
    (filenameIndex : Z) : option (string * string) :=
  match n with
  | O => None
  | S n' =>
      if negb (String.eqb (slice1 p filenameIndex) ".")
      then Some (slice_to p dotIndex, slice_from p dotIndex)
      else splitext_loop p dotIndex n' (filenameIndex + 1)%Z
  end.

(** [os.path.splitext] ([posixpath]: separator [/], no alternative
    separator, extension separator [.]). *)
Definition splitext (p : string) : string * string :=
  let sepIndex := rfind "/" p in
  let dotIndex := rfind "." p in
  if (sepIndex <? dotIndex)%Z then
    let filenameIndex := (sepIndex + 1)%Z in
    match splitext_loop p dotIndex
            (Z.to_nat (dotIndex - filenameIndex)) filenameIndex with
    | Some r => r
    | None => (p, "")
    end
  else (p, "").

(** [sep.join(l)]. *)
Fixpoint join (sep : string) (l : list string) : string :=
  match l with
  | [] => ""
  | [x] => x
  | x :: l' => x ++ sep ++ join sep l'
  end.

(** [sorted(l)] on strings: a stable insertion sort under [String.leb]
    (code-point lexicographic order). *)
Fixpoint insert_sorted (x : string) (l : list string) : list string :=
  match l with
  | [] => [x]
  | y :: l' => if String.leb x y then x :: y :: l'
               else y :: insert_sorted x l'
  end.

Definition sorted (l : list string) : list string :=
  fold_right insert_sorted [] l.

(** [x in s] for a set literal of strings. *)
Definition mem (x : string) (s : list string) : bool :=
  existsb (String.eqb x) s.

(** [max(a, b)] on floats: the first argument is kept unless the second
    compares strictly greater ([b > a]). *)
Definition max (a b : float) : float :=
  if PrimFloat.ltb a b then b else a.

End Py.

(* ===================================================================== *)
(** ** Exceptions and HTTP errors *)
(* ===================================================================== *)

(** A raised Python [Exception]: either an ordinary one, of which only
    [str(e)] is ever observed, or FastAPI's [HTTPException]. *)
Inductive Exception :=
| Exc (msg : string)
| HTTPException (status_code : Z) (detail : string).

Module Validation.

(** [audio_extensions], in the order of the set literal. *)
Definition audio_extensions : list string :=
  [".wav"; ".mp3"; ".m4a"; ".flac"; ".ogg"; ".aac"; ".wma"; ".opus";
   ".mp4"; ".m4v"].

(** [content_type and content_type.startswith('audio/')], read as a
    condition. *)
Definition is_audio_content_type (content_type : option string) : bool :=
  match content_type with
  | Some ct => Py.truthy (Some ct) && Py.startswith ct "audio/"
  | None => false
  end.

(** [content_type in (None, 'application/octet-stream')]. *)
Definition is_generic (content_type : option string) : bool :=
  match content_type with
  | None => true
  | Some ct => String.eqb ct "application/octet-stream"
  end.

Definition ext_detail (content_type : option string) : string :=
  "Invalid file type: " ++ Py.str_or content_type "unknown"
  ++ ". Expected audio file (supported extensions: "
  ++ Py.join ", " (Py.sorted audio_extensions) ++ ").".

Definition type_detail (content_type : option string) : string :=
  "Invalid file type: " ++ match content_type with
                           | Some ct => ct
                           | None => "None"
                           end
  ++ ". Expected audio file.".

(** Lines 143-167 of [process_audio]: [inl tt] when control falls
    through to staging, [inr e] when [e] is raised. *)
Definition validate (content_type filename : option string)
    : unit + Exception :=
  if negb (is_audio_content_type content_type) then
    if is_generic content_type then
      let filename := Py.str_or filename "" in
      let file_ext := Py.lower (snd (Py.splitext filename)) in
      if negb (Py.mem file_ext audio_extensions)
      then inr (HTTPException 400 (ext_detail content_type))
      else inl tt
    else inr (HTTPException 400 (type_detail content_type))
  else inl tt.

End Validation.

(* ===================================================================== *)
(** ** Result normalisation (the loop of lines 186-213) *)
(* ===================================================================== *)

(** One item of [diarization.speaker_diarization]: a turn and its label. *)
Record RawTurn := {
  turn_start : float;
  turn_end : float;
  turn_speaker : string;
}.

(** [SpeakerSegment]; [end] is written [seg_end]. *)
Record SpeakerSegment := {
  seg_speaker : string;
  seg_start : float;
  seg_end : float;
  seg_duration : float;
}.

(** [DiarizationResponse]. *)
Record DiarizationResponse := {
  success : bool;
  segments : list SpeakerSegment;
  total_speakers : nat;
  total_duration : float;
  message : option string;
}.

Module Normalizer.

(** [str(n)] for a length. *)
Definition str_of_nat (n : nat) : string :=
  NilZero.string_of_uint (Nat.to_uint n).

(** The three loop variables [segments], [speakers], [total_duration]. *)
Record Acc := {
  acc_segments : list SpeakerSegment;
  acc_speakers : gset string;
  acc_total : float;
}.

Definition acc0 : Acc :=
  {| acc_segments := []; acc_speakers := ∅; acc_total := 0%float |}.

(** The segment appended for one [turn, speaker]. *)
Definition segment_of (t : RawTurn) : SpeakerSegment :=
  let start := turn_start t in
  let end_ := turn_end t in
  let duration := PrimFloat.sub end_ start in
  {| seg_speaker := turn_speaker t; seg_start := start;
     seg_end := end_; seg_duration := duration |}.

(** One iteration of [for turn, speaker in ...]. *)
Definition step (a : Acc) (t : RawTurn) : Acc :=
  {| acc_segments := acc_segments a ++ [segment_of t];
     acc_speakers := acc_speakers a ∪ {[turn_speaker t]};
     acc_total := Py.max (acc_total a) (turn_end t) |}.

Definition run_loop (turns : list RawTurn) : Acc :=
  fold_left step turns acc0.

(** The [DiarizationResponse(...)] built after the loop. *)
Definition respond (a : Acc) : DiarizationResponse :=
  {| success := true;
     segments := acc_segments a;
     total_speakers := size (acc_speakers a);
     total_duration := acc_total a;
     message := Some ("Successfully processed "
                      ++ str_of_nat (length (acc_segments a))
                      ++ " segments") |}.

Definition normalize (turns : list RawTurn) : DiarizationResponse :=
  respond (run_loop turns).

End Normalizer.

(* ===================================================================== *)
(** ** The process: globals, file system, log, engine *)
(* ===================================================================== *)

(** The instantiated parameter set [pipeline.parameters(instantiated=True)]:
    pyannote's two-level mapping, component name to parameter name to
    value.  Every component present maps to the dict of its parameters;
    [hparams.get(c)] followed by [isinstance(.., dict)], and [c in hparams],
    are both the lookup of [c]. *)
Abbreviation Hparams := (gmap string (gmap string float)).

(** A loaded [pyannote.audio.Pipeline]: what it was loaded from and the
    parameters it is currently instantiated with. *)
Record Pipeline := {
  checkpoint : string;
  token : option string;
  parameters : Hparams;
}.

Inductive Level := INFO | WARNING | ERROR.

(** A formatted message: the pieces of the f-string, floats left as
    values. *)
Inductive Frag :=
| Str (s : string)
| Flt (x : float).

(** One call [pipeline(path, num_speakers=, min_speakers=, max_speakers=)]. *)
Record EngineCall := {
  call_path : string;
  num_speakers : Z;
  min_speakers : Z;
  max_speakers : Z;
}.

(** What the handlers read and write outside their own frame: the module
    global [pipeline], the temporary-file area, the logger's output and the
    trace of engine calls. *)
Record World := {
  pipeline : option Pipeline;
  files : gmap string (list Byte.byte);
  log : list (Level * list Frag);
  engine_calls : list EngineCall;
}.

Definition set_pipeline (p : option Pipeline) (w : World) : World :=
  {| pipeline := p; files := files w; log := log w;
     engine_calls := engine_calls w |}.

Definition set_files (f : gmap string (list Byte.byte)) (w : World) : World :=
  {| pipeline := pipeline w; files := f; log := log w;
     engine_calls := engine_calls w |}.

Definition add_log (r : Level * list Frag) (w : World) : World :=
  {| pipeline := pipeline w; files := files w; log := log w ++ [r];
     engine_calls := engine_calls w |}.

Definition add_call (c : EngineCall) (w : World) : World :=
  {| pipeline := pipeline w; files := files w; log := log w;
     engine_calls := engine_calls w ++ [c] |}.

(** [str(e)]. *)
Definition str_exc (e : Exception) : string :=
  match e with
  | Exc msg => msg
  | HTTPException code detail =>
      Normalizer.str_of_nat (Z.to_nat code) ++ ": " ++ detail
  end.

(** [f"{x}"] for an optional string. *)
Definition fmt_opt (x : option string) : string :=
  match x with
  | Some s => s
  | None => "None"
  end.

(* ===================================================================== *)
(** ** Computations that read and write a state and may raise *)
(* ===================================================================== *)

Module Eff.

Definition M (S A : Type) : Type := S -> (A + Exception) * S.

Definition ret {S A} (a : A) : M S A := fun s => (inl a, s).

Definition raise {S A} (e : Exception) : M S A := fun s => (inr e, s).

Definition bind {S A B} (m : M S A) (k : A -> M S B) : M S B :=
  fun s =>
    match m s with
    | (inl a, s') => k a s'
    | (inr e, s') => (inr e, s')
    end.

Definition get {S} : M S S := fun s => (inl s, s).

Definition modify {S} (f : S -> S) : M S unit := fun s => (inl tt, f s).

(** An operation of the environment that returns or raises. *)
Definition lift {S A} (r : A + Exception) : M S A := fun s => (r, s).

(** An operation of the environment that either completes or raises. *)
Definition check {S} (r : option Exception) : M S unit :=
  fun s => match r with
           | None => (inl tt, s)
           | Some e => (inr e, s)
           end.

(** [try: body  except Exception as e: handler(e)]. *)
Definition try_except {S A} (body : M S A) (handler : Exception -> M S A)
    : M S A :=
  fun s =>
    match body s with
    | (inl a, s') => (inl a, s')
    | (inr e, s') => handler e s'
    end.

(** [try: body  finally: fin]: [fin] runs on both exits; an exception
    of [fin] replaces the outcome of [body]. *)
Definition try_finally {S A} (body : M S A) (fin : M S unit) : M S A :=
  fun s =>
    match body s with
    | (r, s') =>
        match fin s' with
        | (inl _, s'') => (r, s'')
        | (inr e, s'') => (inr e, s'')
        end
    end.

(** [for x in l: acc = body(acc, x)]: a loop that updates one local. *)
Fixpoint for_each {S A B} (l : list A) (body : B -> A -> M S B) (b : B)
    : M S B :=
  match l with
  | [] => ret b
  | x :: l' => bind (body b x) (for_each l' body)
  end.

End Eff.

Declare Scope eff_scope.
Delimit Scope eff_scope with eff.
Notation "x <- c ;; k" := (Eff.bind c (fun x => k))
  (at level 100, c at next level, right associativity) : eff_scope.
Notation "c ;; k" := (Eff.bind c (fun _ => k))
  (at level 100, right associativity) : eff_scope.

(* ===================================================================== *)
(** ** The request handlers *)
(* ===================================================================== *)

(** [UploadFile]: the declared media type, the filename and the bytes. *)
Record UploadFile := {
  content_type : option string;
  filename : option string;
  content : list Byte.byte;
}.

(** What the surroundings decide during one request: the temporary
    directory, the random part of the name [NamedTemporaryFile] picks for a
    suffix (or its error), whether reading the upload, writing the file and
    removing it fail, and what the engine answers for a staged file. *)
Record RequestEnv := {
  tmp_dir : string;
  tmp_create : string -> string + Exception;
  read_error : option Exception;
  write_error : option Exception;
  diarize : Pipeline -> string -> option (list Byte.byte) -> Z -> Z -> Z ->
            list RawTurn + Exception;
  remove_error : string -> option Exception;
}.

Module Handler.
Import Eff.
Local Open Scope eff_scope.

(** The frame of [process_audio]: the shared world and the local
    variable [temp_file], which the [finally] block reads. *)
Record Frame := {
  world : World;
  temp_file : option string;
}.

Definition on_world (f : World -> World) : M Frame unit :=
  modify (fun fr => {| world := f (world fr); temp_file := temp_file fr |}).

Definition logger (lv : Level) (msg : list Frag) : M Frame unit :=
  on_world (add_log (lv, msg)).

Definition set_temp_file (p : string) : M Frame unit :=
  modify (fun fr => {| world := world fr; temp_file := Some p |}).

(** [pipeline(temp_file, num_speakers=.., min_speakers=.., max_speakers=..)]:
    the call is recorded, then the engine answers from the staged bytes. *)
Definition call_pipeline (env : RequestEnv) (pl : Pipeline) (path : string)
    (num mn mx : Z) : M Frame (list RawTurn) :=
  on_world (add_call {| call_path := path; num_speakers := num;
                        min_speakers := mn; max_speakers := mx |}) ;;
  fr <- get ;;
  lift (diarize env pl path (files (world fr) !! path) num mn mx).

(** [os.path.splitext(audio.filename or "audio")[1] or ".wav"]. *)
Definition suffix_of (audio : UploadFile) : string :=
  Py.or_default (snd (Py.splitext (Py.str_or (filename audio) "audio")))
                ".wav".

(** [tmp_file.name]: directory, the prefix [tmp], the random part and
    the suffix. *)
Definition tmp_name (env : RequestEnv) (rnd suffix : string) : string :=
  tmp_dir env ++ "/tmp" ++ rnd ++ suffix.

(** The [with tempfile.NamedTemporaryFile(delete=False, suffix=suffix)]
    block: the file exists from creation on and survives the block. *)
Definition stage (env : RequestEnv) (audio : UploadFile)
    : M Frame (string * list Byte.byte) :=
  let suffix := suffix_of audio in
  rnd <- lift (tmp_create env suffix) ;;
  let path := tmp_name env rnd suffix in
  on_world (fun w => set_files (<[path := []]> (files w)) w) ;;
  set_temp_file path ;;
  check (read_error env) ;;
  let content := content audio in
  check (write_error env) ;;
  on_world (fun w => set_files (<[path := content]> (files w)) w) ;;
  ret (path, content).

(** The [try] block, lines 172-213. *)
Definition try_body (env : RequestEnv) (pl : Pipeline) (audio : UploadFile)
    : M Frame DiarizationResponse :=
  staged <- stage env audio ;;
  let temp_file := fst staged in
  let content := snd staged in
  logger INFO [Str ("Processing audio file: " ++ fmt_opt (filename audio)
                    ++ " (" ++ Normalizer.str_of_nat (length content)
                    ++ " bytes)")] ;;
  diarization <- call_pipeline env pl temp_file 2 2 2 ;;
  let acc := Normalizer.run_loop diarization in
  logger INFO [Str ("Processed "
                    ++ Normalizer.str_of_nat
                         (length (Normalizer.acc_segments acc))
                    ++ " segments from "
                    ++ Normalizer.str_of_nat
                         (size (Normalizer.acc_speakers acc))
                    ++ " speakers")] ;;
  ret (Normalizer.respond acc).

(** The [except Exception as e] block, lines 215-220. *)
Definition except_body (e : Exception) : M Frame DiarizationResponse :=
  logger ERROR [Str ("Error processing audio: " ++ str_exc e)] ;;
  raise (HTTPException 500 ("Error processing audio: " ++ str_exc e)).

(** The [finally] block, lines 221-227. *)
Definition finally_body (env : RequestEnv) : M Frame unit :=
  fr <- get ;;
  match temp_file fr with
  | Some (String a s as path) =>
      if bool_decide (is_Some (files (world fr) !! path)) then
        try_except
          (check (remove_error env path) ;;
           on_world (fun w => set_files (delete path (files w)) w))
          (fun e => logger WARNING
                      [Str ("Failed to remove temp file: " ++ str_exc e)])
      else ret tt
  | _ => ret tt
  end.

(** [process_audio] on its frame, lines 137-227. *)
Definition process_audio_frame (env : RequestEnv) (audio : UploadFile)
    : M Frame DiarizationResponse :=
  fr <- get ;;
  match pipeline (world fr) with
  | None =>
      raise (HTTPException 503
               "Pipeline not loaded. Please check server logs.")
  | Some pl =>
      lift (Validation.validate (content_type audio) (filename audio)) ;;
      try_finally
        (try_except (try_body env pl audio) except_body)
        (finally_body env)
  end.

(** [process_audio] as the rest of the process sees it: the response or
    the raised exception, and the world it leaves. *)
Definition process_audio (env : RequestEnv) (audio : UploadFile)
    : M World DiarizationResponse :=
  fun w =>
    match process_audio_frame env audio
            {| world := w; temp_file := None |} with
    | (r, fr) => (r, world fr)
    end.

(** The staged path of a run: the final value of [temp_file]. *)
Definition staged (env : RequestEnv) (audio : UploadFile) (w : World)
    : option string :=
  temp_file (snd (process_audio_frame env audio
                    {| world := w; temp_file := None |})).

(** The body of [GET /health]. *)
Record Health := {
  status : string;
  service : string;
  pipeline_loaded : bool;
}.

Definition health_check (w : World) : Health :=
  {| status := "healthy";
     service := "pyannote-audio";
     pipeline_loaded := bool_decide (is_Some (pipeline w)) |}.

End Handler.

(* ===================================================================== *)
(** ** Start-up: loading the pipeline and applying the tunables *)
(* ===================================================================== *)

#[local] Set Warnings "-inexact-float".

(** The developer tunables at the top of the module. *)
Record Tunables := {
  CLUSTERING_THRESHOLD : option float;
  SEG_MIN_DURATION_ON : option float;
  SEG_MIN_DURATION_OFF : option float;
  SEG_THRESHOLD : option float;
  SEG_ONSET : option float;
  SEG_OFFSET : option float;
}.

(** Their values in the source. *)
Definition tunables : Tunables :=
  {| CLUSTERING_THRESHOLD := Some 0.80%float;
     SEG_MIN_DURATION_ON := Some 0.0%float;
     SEG_MIN_DURATION_OFF := Some 0.0%float;
     SEG_THRESHOLD := None;
     SEG_ONSET := Some 0.1%float;
     SEG_OFFSET := Some 0.1%float |}.

(** What the surroundings decide at start-up: the environment variable
    [HF_TOKEN], what [Pipeline.from_pretrained] returns for a checkpoint
    and a token, and whether [pipeline.instantiate] accepts a parameter
    set. *)
Record StartupEnv := {
  HF_TOKEN : option string;
  from_pretrained : string -> option string -> Pipeline + Exception;
  instantiate_error : Pipeline -> Hparams -> option Exception;
}.

Module Startup.
Import Eff.
Local Open Scope eff_scope.

Definition logger (lv : Level) (msg : list Frag) : M World unit :=
  modify (add_log (lv, msg)).

Definition is_some {A} (x : option A) : bool :=
  match x with
  | Some _ => true
  | None => false
  end.

Definition any_tunable (cfg : Tunables) : bool :=
  is_some (CLUSTERING_THRESHOLD cfg)
  || is_some (SEG_MIN_DURATION_ON cfg)
  || is_some (SEG_MIN_DURATION_OFF cfg)
  || is_some (SEG_THRESHOLD cfg)
  || is_some (SEG_ONSET cfg)
  || is_some (SEG_OFFSET cfg).

(** The list the [for const, key in [...]] loop runs over. *)
Definition seg_overrides (cfg : Tunables) : list (option float * string) :=
  [(SEG_MIN_DURATION_ON cfg, "min_duration_on");
   (SEG_MIN_DURATION_OFF cfg, "min_duration_off");
   (SEG_THRESHOLD cfg, "threshold");
   (SEG_ONSET cfg, "onset");
   (SEG_OFFSET cfg, "offset")].

(** Lines 81-83. *)
Definition override_clustering (cfg : Tunables) (hparams : Hparams)
    : M World Hparams :=
  match CLUSTERING_THRESHOLD cfg, hparams !! "clustering" with
  | Some v, Some clustering =>
      if is_some (clustering !! "threshold") then
        let hparams :=
          <["clustering" := <["threshold" := v]> clustering]> hparams in
        logger INFO [Str "Clustering threshold set to "; Flt v] ;;
        ret hparams
      else ret hparams
  | _, _ => ret hparams
  end.

(** One iteration of the loop of lines 86-95, on the dict [seg]. *)
Definition override_seg (seg : gmap string float)
    (ck : option float * string) : M World (gmap string float) :=
  match fst ck with
  | Some const =>
      if is_some (seg !! snd ck) then
        let seg := <[snd ck := const]> seg in
        logger INFO [Str ("Segmentation " ++ snd ck ++ " set to ");
                     Flt const] ;;
        ret seg
      else ret seg
  | None => ret seg
  end.

(** Lines 84-95. [seg] is the very dict stored under ["segmentation"],
    so the loop's writes show in [hparams]. *)
Definition override_segmentation (cfg : Tunables) (hparams : Hparams)
    : M World Hparams :=
  match hparams !! "segmentation" with
  | Some seg =>
      seg <- for_each (seg_overrides cfg) override_seg seg ;;
      ret (<["segmentation" := seg]> hparams)
  | None => ret hparams
  end.

Definition checkpoint_name : string :=
  "pyannote/speaker-diarization-community-1".

(** The [try] block of [load_pipeline], lines 58-96. *)
Definition load_body (env : StartupEnv) (cfg : Tunables) : M World unit :=
  logger INFO [Str "Loading pyannote-audio pipeline..."] ;;
  let hf_token := HF_TOKEN env in
  pl <- (if Py.truthy hf_token then
           lift (from_pretrained env checkpoint_name hf_token)
         else
           logger WARNING
             [Str "HF_TOKEN not set, attempting to load without token (may fail if model requires authentication)"] ;;
           lift (from_pretrained env checkpoint_name None)) ;;
  modify (set_pipeline (Some pl)) ;;
  logger INFO [Str "Pipeline loaded successfully!"] ;;
  if any_tunable cfg then
    let hparams := parameters pl in
    hparams <- override_clustering cfg hparams ;;
    hparams <- override_segmentation cfg hparams ;;
    check (instantiate_error env pl hparams) ;;
    modify (set_pipeline
              (Some {| checkpoint := checkpoint pl; token := token pl;
                       parameters := hparams |}))
  else ret tt.

(** [load_pipeline], lines 54-99. *)
Definition load_pipeline (env : StartupEnv) (cfg : Tunables) : M World unit :=
  try_except (load_body env cfg)
    (fun e =>
       logger ERROR [Str ("Failed to load pipeline: " ++ str_exc e)] ;;
       raise e).

End Startup.

(* ===================================================================== *)
(** ** Vocabulary of the statements, and sample data *)
(* ===================================================================== *)

(** [c in s] for a character. *)
Fixpoint has_char (c : ascii) (s : string) : bool :=
  match s with
  | EmptyString => false
  | String a s' => Ascii.eqb a c || has_char c s'
  end.

(** Three turns of two speakers, the second overlapping the first. *)
Definition sample_turns : list RawTurn :=
  [{| turn_start := 0.0; turn_end := 2.0; turn_speaker := "A" |};
   {| turn_start := 1.5; turn_end := 3.0; turn_speaker := "B" |};
   {| turn_start := 3.0; turn_end := 5.0; turn_speaker := "A" |}]%float.

(** The frame [process_audio] starts in. *)
Definition start (w : World) : Handler.Frame :=
  {| Handler.world := w; Handler.temp_file := None |}.

(** The [try]/[except] pair of [process_audio] without its [finally]. *)
Definition guarded (env : RequestEnv) (pl : Pipeline) (audio : UploadFile)
    : Eff.M Handler.Frame DiarizationResponse :=
  Eff.try_except (Handler.try_body env pl audio) Handler.except_body.

(** The error the [except] block raises for [e]. *)
Definition error_500 (e : Exception) : Exception :=
  HTTPException 500 ("Error processing audio: " ++ str_exc e).

(** The one engine call of a request that staged [path]. *)
Definition the_call (path : string) : EngineCall :=
  {| call_path := path; num_speakers := 2; min_speakers := 2;
     max_speakers := 2 |}.

(** The same surroundings with another behaviour of [os.remove]. *)
Definition with_remove (env : RequestEnv) (f : string -> option Exception)
    : RequestEnv :=
  {| tmp_dir := tmp_dir env; tmp_create := tmp_create env;
     read_error := read_error env; write_error := write_error env;
     diarize := diarize env; remove_error := f |}.

(** [e] is the exception raised inside the [try] block: by creating the
    temporary file, by reading the upload, by writing the file, or by the
    engine. *)
Inductive raised_in_try (env : RequestEnv) (pl : Pipeline)
    (audio : UploadFile) : Exception -> Prop :=
| raised_by_create e :
    tmp_create env (Handler.suffix_of audio) = inr e ->
    raised_in_try env pl audio e
| raised_by_read rnd e :
    tmp_create env (Handler.suffix_of audio) = inl rnd ->
    read_error env = Some e ->
    raised_in_try env pl audio e
| raised_by_write rnd e :
    tmp_create env (Handler.suffix_of audio) = inl rnd ->
    read_error env = None ->
    write_error env = Some e ->
    raised_in_try env pl audio e
| raised_by_engine rnd e :
    tmp_create env (Handler.suffix_of audio) = inl rnd ->
    read_error env = None ->
    write_error env = None ->
    diarize env pl (Handler.tmp_name env rnd (Handler.suffix_of audio))
      (Some (content audio)) 2 2 2 = inr e ->
    raised_in_try env pl audio e.

(** The world the [finally] block leaves for a staged [path]. *)
Definition cleaned (env : RequestEnv) (path : string) (w : World) : World :=
  match remove_error env path with
  | None => set_files (delete path (files w)) w
  | Some e =>
      add_log (WARNING, [Str ("Failed to remove temp file: " ++ str_exc e)]) w
  end.

(** The value stored under [component][key], if any. *)
Definition param (h : Hparams) (component key : string) : option float :=
  match h !! component with
  | Some group => group !! key
  | None => None
  end.

(** The tunable aimed at a key of the [segmentation] component, and at
    [component][key] in general, if any. *)
Definition seg_target (cfg : Tunables) (key : string) : option float :=
  if String.eqb key "min_duration_on" then SEG_MIN_DURATION_ON cfg
  else if String.eqb key "min_duration_off" then SEG_MIN_DURATION_OFF cfg
  else if String.eqb key "threshold" then SEG_THRESHOLD cfg
  else if String.eqb key "onset" then SEG_ONSET cfg
  else if String.eqb key "offset" then SEG_OFFSET cfg
  else None.

Definition target (cfg : Tunables) (component key : string) : option float :=
  if String.eqb component "clustering" then
    if String.eqb key "threshold" then CLUSTERING_THRESHOLD cfg else None
  else if String.eqb component "segmentation" then seg_target cfg key
  else None.

(** What an override does to a stored value: replace it when set. *)
Definition overridden (old : float) (t : option float) : float :=
  match t with
  | Some v => v
  | None => old
  end.

(** The value a run of overrides leaves under [k]. *)
Definition after_all (l : list (option float * string)) (k : string)
    (old : float) : float :=
  fold_left (fun v ck => if String.eqb k (snd ck)
                         then overridden v (fst ck) else v) l old.

(** Two worlds that differ at most in the log. *)
Definition same_but_log (w w' : World) : Prop :=
  pipeline w' = pipeline w /\ files w' = files w
  /\ engine_calls w' = engine_calls w.

(** The token [load_pipeline] passes to [from_pretrained]. *)
Definition used_token (env : StartupEnv) : option string :=
  if Py.truthy (HF_TOKEN env) then HF_TOKEN env else None.

(** A loaded pipeline, a world that holds it and one that does not, an
    upload, and surroundings in which only the engine and [os.remove] are
    left open. *)
Definition sample_pipeline : Pipeline :=
  {| checkpoint := "pyannote/speaker-diarization-community-1";
     token := None;
     parameters := ∅ |}.

Definition loaded_world : World :=
  {| pipeline := Some sample_pipeline; files := ∅; log := [];
     engine_calls := [] |}.

Definition unloaded_world : World :=
  {| pipeline := None; files := ∅; log := []; engine_calls := [] |}.

Definition sample_upload : UploadFile :=
  {| content_type := Some "audio/wav"; filename := Some "speech.wav";
     content := [] |}.

Definition sample_env (answer : list RawTurn + Exception)
    (removal : option Exception) : RequestEnv :=
  {| tmp_dir := "/tmp";
     tmp_create := fun _ => inl "k3x9q2ab";
     read_error := None;
     write_error := None;
     diarize := fun _ _ _ _ _ _ => answer;
     remove_error := fun _ => removal |}.

(** A checkpoint as [from_pretrained] may return it, and surroundings that
    return it and accept every parameter set. *)
Definition sample_loaded : Pipeline :=
  {| checkpoint := "pyannote/speaker-diarization-community-1";
     token := Some "hf_token";
     parameters :=
       {[ "clustering" := {[ "threshold" := 0.6%float; "Fa" := 0.07%float ]};
          "segmentation" := {[ "min_duration_off" := 0.5%float ]} ]} |}.

Definition sample_startup : StartupEnv :=
  {| HF_TOKEN := Some "hf_token";
     from_pretrained := fun _ _ => inl sample_loaded;
     instantiate_error := fun _ _ => None |}.

(* ===================================================================== *)
(** ** Module initialisation: the model cache and the [torch.load] patch *)
(* ===================================================================== *)

Module Init.

(** [os.environ] as a dict of strings. *)
Abbreviation Environ := (gmap string string).

(** [environ.setdefault(k, v)]: a key that is there keeps its value. *)
Definition setdefault (k v : string) (environ : Environ) : Environ :=
  match environ !! k with
  | Some _ => environ
  | None => <[k := v]> environ
  end.

Definition cache_dir : string := "/app/.cache/huggingface".

(** [app.py], lines 8-9. *)
Definition app_environ (environ : Environ) : Environ :=
  setdefault "HF_HUB_CACHE" cache_dir (setdefault "HF_HOME" cache_dir environ).

(** [download_model.py], lines 10-11. *)
Definition download_environ (environ : Environ) : Environ :=
  <["HF_HUB_CACHE" := cache_dir]> (<["HF_HOME" := cache_dir]> environ).

(** [_patched_torch_load], with its positional and keyword arguments,
    around [_original_torch_load]: [V] is the type of Python values, [py_false] the value [False], [R] what
    the loader returns. *)
Definition patched_torch_load {V R : Type} (py_false : V)
    (original_torch_load : list V -> gmap string V -> R)
    (args : list V) (kwargs : gmap string V) : R :=
  let kwargs := <["weights_only" := py_false]> kwargs in
  original_torch_load args kwargs.

End Init.

(* ===================================================================== *)
(** ** [download_model.py]: the build-time download script *)
(* ===================================================================== *)

Module Download.

(** What the script does to the outside, in order. *)
Inductive Event :=
| Printed (line : string)
| Login (token : string)
| FromPretrained (checkpoint : string) (token : string).

(** How the script ends: it runs to its last line, [sys.exit(code)], or an
    exception nobody catches. *)
Inductive Outcome :=
| Completed
| Exited (code : Z)
| Uncaught (e : Exception).

(** What the surroundings decide: the environment, the command line
    ([sys.argv], the script's own name first), and whether
    [huggingface_hub.login] and [Pipeline.from_pretrained] fail. *)
Record ScriptEnv := {
  environ : Init.Environ;
  argv : list string;
  login_error : string -> option Exception;
  download_error : string -> string -> option Exception;
}.

(** [sys.argv[1] if len(sys.argv) > 1 else None]. *)
Definition argv1 (argv : list string) : option string :=
  if (1 <? length argv)%nat then nth_error argv 1 else None.

(** [os.environ.get('HF_TOKEN') or (...)], line 22. *)
Definition hf_token (env : ScriptEnv) : option string :=
  let from_env := Init.download_environ (environ env) !! "HF_TOKEN" in
  if Py.truthy from_env then from_env else argv1 (argv env).

(** Lines 24-36. *)
Definition run (env : ScriptEnv) : list Event * Outcome :=
  match hf_token env with
  | Some (String a s as hf_token) =>
      let trace := [Printed "Logging in to HuggingFace Hub...";
                    Login hf_token] in
      match login_error env hf_token with
      | Some e => (trace, Uncaught e)
      | None =>
          let trace :=
            (trace ++
               [Printed "Downloading pyannote speaker diarization model...";
                FromPretrained "pyannote/speaker-diarization-community-1"
                  hf_token])%list in
          match download_error env
                  "pyannote/speaker-diarization-community-1" hf_token with
          | Some e => (trace, Uncaught e)
          | None =>
              ((trace ++ [Printed "Model downloaded successfully!"])%list,
               Completed)
          end
      end
  | _ => ([Printed "ERROR: HF_TOKEN not provided"], Exited 1)
  end.

End Download.

(** A script run with a token on the command line only. *)
Definition sample_script : Download.ScriptEnv :=
  {| Download.environ := {[ "HF_TOKEN" := "" ]};
     Download.argv := ["download_model.py"; "hf_abc"];
     Download.login_error := fun _ => None;
     Download.download_error := fun _ _ => None |}.

(* ===================================================================== *)
(** * Properties *)
(* ===================================================================== *)

(** ** Upload validation *)

Section ValidationFacts.
Import Validation.

Lemma mem_In (x : string) (l : list string) :
  Py.mem x l = true <-> In x l.
Proof.
  unfold Py.mem. rewrite existsb_exists. split.
  - intros (y & Hy & Heq). apply String.eqb_eq in Heq. now subst.
  - intros Hin. exists x. split; [exact Hin | apply String.eqb_refl].
Qed.

Lemma validate_generic (ct fn : option string) :
  is_audio_content_type ct = false ->
  is_generic ct = true ->
  validate ct fn =
    if Py.mem (Py.lower (snd (Py.splitext (Py.str_or fn "")))) audio_extensions
    then inl tt
    else inr (HTTPException 400 (ext_detail ct)).
Proof.
  intros Ha Hg. unfold validate. rewrite Ha, Hg. cbn [negb].
  destruct (Py.mem _ audio_extensions); reflexivity.
Qed.

Lemma validate_audio (ct fn : option string) :
  is_audio_content_type ct = true -> validate ct fn = inl tt.
Proof. intros Ha. unfold validate. now rewrite Ha. Qed.

Lemma validate_explicit (ct fn : option string) :
  is_audio_content_type ct = false ->
  is_generic ct = false ->
  validate ct fn = inr (HTTPException 400 (type_detail ct)).
Proof. intros Ha Hg. unfold validate. now rewrite Ha, Hg. Qed.

Lemma startswith_nonempty (s : string) :
  Py.startswith s "audio/" = true -> Py.truthy (Some s) = true.
Proof. destruct s; [discriminate | reflexivity]. Qed.

End ValidationFacts.

(** ** [os.path.splitext] on plain file names *)

Section SplitextFacts.

Lemma rfind_from_absent c s : forall i,
  has_char c s = false -> Py.rfind_from c s i = (-1)%Z.
Proof.
  induction s as [| a s IH]; intros i H; cbn in *; [reflexivity |].
  apply orb_false_iff in H. destruct H as [Ha Hs].
  now rewrite (IH _ Hs), Ha.
Qed.

Lemma rfind_from_last c s t : forall i,
  (0 <= i)%Z -> has_char c t = false ->
  Py.rfind_from c (s ++ String c t) i = (i + Z.of_nat (String.length s))%Z.
Proof.
  induction s as [| a s IH]; intros i Hi Ht; simpl.
  - rewrite (rfind_from_absent _ _ _ Ht). cbn. rewrite Ascii.eqb_refl. lia.
  - rewrite IH by (lia || assumption).
    destruct (Z.leb_spec 0 (i + 1 + Z.of_nat (String.length s))); lia.
Qed.

Lemma has_char_app c s t :
  has_char c (s ++ t) = has_char c s || has_char c t.
Proof.
  induction s as [| a s IH]; simpl; [reflexivity |]. now rewrite IH, orb_assoc.
Qed.

Lemma substring_prefix s t :
  String.substring 0 (String.length s) (s ++ t) = s.
Proof.
  induction s as [| a s IH]; simpl.
  - now destruct t.
  - now rewrite IH.
Qed.

Lemma substring_all t : String.substring 0 (String.length t) t = t.
Proof. induction t as [| a t IH]; simpl; [reflexivity | now rewrite IH]. Qed.

Lemma substring_suffix s t n :
  String.substring (String.length s) n (s ++ t) = String.substring 0 n t.
Proof. induction s as [| a s IH]; simpl; [reflexivity | exact IH]. Qed.

Lemma str_length_app s t :
  String.length (s ++ t) = String.length s + String.length t.
Proof. induction s as [| a s IH]; simpl; [reflexivity | now rewrite IH]. Qed.

(** A plain file name [stem.ext]: no directory, a stem that does not start
    with a dot, an extension without a dot. *)
Lemma splitext_plain (a : ascii) (stem ext : string) :
  a <> "."%char ->
  has_char "/" (String a stem ++ "." ++ ext) = false ->
  has_char "." ext = false ->
  Py.splitext (String a stem ++ "." ++ ext) = (String a stem, "." ++ ext).
Proof.
  intros Ha Hsep Hdot. unfold Py.splitext, Py.rfind.
  rewrite (rfind_from_absent _ _ _ Hsep).
  change ("." ++ ext) with (String "." ext).
  rewrite (rfind_from_last "." (String a stem) ext 0) by (lia || assumption).
  set (n := String.length (String a stem)).
  assert (Hn : (-1 <? 0 + Z.of_nat n)%Z = true) by (apply Z.ltb_lt; lia).
  rewrite Hn. replace (Z.to_nat (0 + Z.of_nat n - (-1 + 1))) with n by lia.
  subst n. cbn [String.length Py.splitext_loop].
  assert (H1 : Py.slice1 (String a stem ++ String "." ext) (-1 + 1) = String a "").
  { unfold Py.slice1. simpl. f_equal.
    now destruct (stem ++ String "." ext). }
  rewrite H1.
  assert (Hne : String.eqb (String a "") "." = false).
  { apply String.eqb_neq. congruence. }
  rewrite Hne. cbn [negb]. unfold Py.slice_to, Py.slice_from.
  replace (Z.to_nat (0 + Z.of_nat (S (String.length stem))))
    with (String.length (String a stem)) by (cbn [String.length]; lia).
  rewrite substring_prefix, substring_suffix, str_length_app.
  replace (String.length (String a stem) + String.length (String "." ext)
           - String.length (String a stem)) with (String.length (String "." ext)) by lia.
  now rewrite substring_all.
Qed.

(** The allow-list is the set of dotted forms of ten bare extensions. *)
Lemma dotted_In (x : string) (l : list string) :
  In ("." ++ x) (map (String ".") l) <-> In x l.
Proof.
  rewrite in_map_iff. split.
  - intros (y & Hy & Hin). now inversion Hy; subst.
  - intros Hin. now exists x.
Qed.

End SplitextFacts.

Example splitext_mp4 : Py.splitext "video.MP4" = ("video", ".MP4").
Proof. reflexivity. Qed.

Example splitext_hidden : Py.splitext ".bashrc" = (".bashrc", "").
Proof. reflexivity. Qed.

Example splitext_dir : Py.splitext "a.b/c" = ("a.b/c", "").
Proof. reflexivity. Qed.

Example splitext_two :
  Py.splitext "/tmp/..x.tar.gz" = ("/tmp/..x.tar", ".gz").
Proof. reflexivity. Qed.

Example sorted_exts :
  Py.join ", " (Py.sorted Validation.audio_extensions)
  = ".aac, .flac, .m4a, .m4v, .mp3, .mp4, .ogg, .opus, .wav, .wma".
Proof. reflexivity. Qed.

(** C3. When the declared media type is absent or is
    [application/octet-stream], the upload is accepted exactly when the
    lower-cased extension of the filename ([os.path.splitext]) is one of the
    ten allowed extensions; otherwise the handler raises a 400 whose detail
    names the declared type ([unknown] when absent) and lists the allowed
    extensions.  For a plain name [stem.ext] this reads: accepted exactly
    when [ext], lower-cased, is one of wav, mp3, m4a, flac, ogg, aac, wma,
    opus, mp4, m4v.  [video.MP4] without a type is accepted, [notes.txt]
    without a type is rejected. *)
Theorem C3_generic_type_falls_back_to_extension
    (ct fn : option string) :
  ct = None \/ ct = Some "application/octet-stream" ->
  let ext := Py.lower (snd (Py.splitext (Py.str_or fn ""))) in
  (Validation.validate ct fn = inl tt <->
     In ext [".wav"; ".mp3"; ".m4a"; ".flac"; ".ogg"; ".aac"; ".wma";
             ".opus"; ".mp4"; ".m4v"])
  /\ (Validation.validate ct fn <> inl tt ->
      Validation.validate ct fn =
        inr (HTTPException 400
               ("Invalid file type: " ++ Py.str_or ct "unknown"
                ++ ". Expected audio file (supported extensions: "
                ++ ".aac, .flac, .m4a, .m4v, .mp3, .mp4, .ogg, .opus, .wav, .wma"
                ++ ").")))
  /\ (forall a stem x,
        a <> "."%char ->
        has_char "/" (String a stem ++ "." ++ x) = false ->
        has_char "." x = false ->
        (Validation.validate ct (Some (String a stem ++ "." ++ x)) = inl tt
         <-> In (Py.lower x) ["wav"; "mp3"; "m4a"; "flac"; "ogg"; "aac";
                              "wma"; "opus"; "mp4"; "m4v"]))
  /\ Validation.validate None (Some "video.MP4") = inl tt
  /\ Validation.validate None (Some "notes.txt") =
       inr (HTTPException 400
              "Invalid file type: unknown. Expected audio file (supported extensions: .aac, .flac, .m4a, .m4v, .mp3, .mp4, .ogg, .opus, .wav, .wma).").
Proof.
  intros Hct ext.
  assert (Hv : Validation.validate ct fn =
               if Py.mem ext Validation.audio_extensions then inl tt
               else inr (HTTPException 400 (Validation.ext_detail ct))).
  { apply validate_generic; destruct Hct as [-> | ->]; reflexivity. }
  split; [| split; [| split; [| split; reflexivity]]].
  - rewrite Hv. change [".wav"; ".mp3"; ".m4a"; ".flac"; ".ogg"; ".aac";
                        ".wma"; ".opus"; ".mp4"; ".m4v"]
      with Validation.audio_extensions.
    rewrite <- mem_In. destruct (Py.mem ext Validation.audio_extensions).
    + split; reflexivity.
    + split; discriminate.
  - rewrite Hv. destruct (Py.mem ext Validation.audio_extensions).
    + intros H. now contradiction H.
    + intros _. destruct Hct as [-> | ->]; reflexivity.
  - intros a stem x Ha Hsep Hdot.
    rewrite validate_generic by (destruct Hct as [-> | ->]; reflexivity).
    change (Py.str_or (Some (String a stem ++ "." ++ x)) "")
      with (String a stem ++ "." ++ x).
    rewrite (splitext_plain a stem x Ha Hsep Hdot).
    cbn [snd]. change (Py.lower ("." ++ x)) with ("." ++ Py.lower x).
    rewrite <- (dotted_In (Py.lower x)).
    change (map (String ".") ["wav"; "mp3"; "m4a"; "flac"; "ogg"; "aac";
                              "wma"; "opus"; "mp4"; "m4v"])
      with Validation.audio_extensions.
    rewrite <- mem_In.
    destruct (Py.mem ("." ++ Py.lower x) Validation.audio_extensions).
    + split; reflexivity.
    + split; discriminate.
Qed.

Lemma C3_witness :
  (Validation.validate None (Some "clip.Ogg") = inl tt <->
     In ".ogg" [".wav"; ".mp3"; ".m4a"; ".flac"; ".ogg"; ".aac"; ".wma";
                ".opus"; ".mp4"; ".m4v"]).
Proof.
  exact (proj1 (C3_generic_type_falls_back_to_extension
                  None (Some "clip.Ogg") (or_introl eq_refl))).
Defined.

(** C4. A declared media type that starts with [audio/] is accepted
    whatever the filename; any other declared type except
    [application/octet-stream] is rejected with a 400 whatever the
    filename, [speech.wav] with [text/plain] included. *)
Theorem C4_declared_type_decides (ct : string) (fn : option string) :
  (Py.startswith ct "audio/" = true ->
     Validation.validate (Some ct) fn = inl tt)
  /\ (Py.startswith ct "audio/" = false ->
      ct <> "application/octet-stream" ->
      Validation.validate (Some ct) fn =
        inr (HTTPException 400
               ("Invalid file type: " ++ ct ++ ". Expected audio file.")))
  /\ Validation.validate (Some "text/plain") (Some "speech.wav") =
       inr (HTTPException 400
              "Invalid file type: text/plain. Expected audio file.").
Proof.
  split; [| split; [| reflexivity]].
  - intros Hs. apply validate_audio. unfold Validation.is_audio_content_type.
    now rewrite Hs, (startswith_nonempty _ Hs).
  - intros Hs Hne.
    rewrite validate_explicit; [reflexivity | |].
    + unfold Validation.is_audio_content_type. rewrite Hs.
      apply andb_false_r.
    + unfold Validation.is_generic. now apply String.eqb_neq.
Qed.

Lemma C4_witness :
  Validation.validate (Some "audio/x-wav") (Some "notes.txt") = inl tt
  /\ Validation.validate (Some "image/png") (Some "speech.wav") =
       inr (HTTPException 400
              "Invalid file type: image/png. Expected audio file.").
Proof.
  split.
  - exact (proj1 (C4_declared_type_decides "audio/x-wav" (Some "notes.txt"))
             eq_refl).
  - refine (proj1 (proj2 (C4_declared_type_decides "image/png"
                            (Some "speech.wav"))) eq_refl _).
    discriminate.
Defined.

(** C10. An upload whose declared media type is the empty string is
    rejected with a 400 whatever its filename: the empty string is not
    [None], so the extension is never consulted. *)
Theorem C10_empty_type_rejected (fn : option string) :
  Validation.validate (Some "") fn =
    inr (HTTPException 400 "Invalid file type: . Expected audio file.")
  /\ Validation.validate (Some "") (Some "speech.wav") =
       inr (HTTPException 400 "Invalid file type: . Expected audio file.")
  /\ Validation.validate None (Some "speech.wav") = inl tt.
Proof. repeat split. Qed.

(** ** Order facts about binary64 comparison *)

Section FloatOrder.

Local Ltac cmp_cases :=
  repeat match goal with
    | |- context [(?a ?= ?b)%Z] => destruct (Z.compare_spec a b)
    | H : context [(?a ?= ?b)%Z] |- _ => destruct (Z.compare_spec a b)
    | |- context [(?a ?= ?b)%positive] => destruct (Pos.compare_spec a b)
    | H : context [(?a ?= ?b)%positive] |- _ =>
        destruct (Pos.compare_spec a b)
    end.

Local Ltac sf_cases :=
  intros; cbn in *;
  repeat match goal with
    | s : bool |- _ => destruct s
    end;
  cbn in *; try congruence;
  rewrite ?Pos.compare_cont_spec in *; cbn in *;
  cmp_cases; cbn in *; subst; try congruence; try lia.

Lemma SFltb_irrefl (x : spec_float) : SFltb x x = false.
Proof. unfold SFltb. destruct x; sf_cases. Qed.

Lemma SFltb_trans (x y z : spec_float) :
  SFltb x y = true -> SFltb y z = true -> SFltb x z = true.
Proof. unfold SFltb. destruct x, y, z; sf_cases. Qed.

Lemma SFltb_right_ordered (x y : spec_float) :
  SFltb x y = true -> SFeqb y y = true.
Proof. unfold SFltb, SFeqb. destruct x, y; sf_cases. Qed.

Lemma SFltb_false_leb (x y : spec_float) :
  SFeqb x x = true -> SFeqb y y = true ->
  SFltb x y = false -> SFleb y x = true.
Proof. unfold SFltb, SFeqb, SFleb. destruct x, y; sf_cases. Qed.

Lemma SFleb_not_ltb_eqb (x y : spec_float) :
  SFleb x y = true -> SFltb x y = false -> SFeqb x y = true.
Proof. unfold SFltb, SFeqb, SFleb. destruct x, y; sf_cases. Qed.

Lemma SFleb_right_ordered (x y : spec_float) :
  SFleb x y = true -> SFeqb y y = true.
Proof. unfold SFleb, SFeqb. destruct x, y; sf_cases. Qed.

Lemma ltb_irrefl (x : float) : (x <? x)%float = false.
Proof. rewrite FloatAxioms.ltb_spec. apply SFltb_irrefl. Qed.

Lemma ltb_trans (x y z : float) :
  (x <? y)%float = true -> (y <? z)%float = true -> (x <? z)%float = true.
Proof. rewrite !FloatAxioms.ltb_spec. apply SFltb_trans. Qed.

Lemma ltb_right_ordered (x y : float) :
  (x <? y)%float = true -> (y =? y)%float = true.
Proof. rewrite FloatAxioms.ltb_spec, FloatAxioms.eqb_spec. apply SFltb_right_ordered. Qed.

Lemma ltb_false_leb (x y : float) :
  (x =? x)%float = true -> (y =? y)%float = true ->
  (x <? y)%float = false -> (y <=? x)%float = true.
Proof. rewrite FloatAxioms.ltb_spec, FloatAxioms.leb_spec, !FloatAxioms.eqb_spec. apply SFltb_false_leb. Qed.

Lemma leb_not_ltb_eqb (x y : float) :
  (x <=? y)%float = true -> (x <? y)%float = false ->
  (x =? y)%float = true.
Proof. rewrite FloatAxioms.ltb_spec, FloatAxioms.leb_spec, FloatAxioms.eqb_spec. apply SFleb_not_ltb_eqb. Qed.

Lemma leb_right_ordered (x y : float) :
  (x <=? y)%float = true -> (y =? y)%float = true.
Proof.
  rewrite FloatAxioms.leb_spec, FloatAxioms.eqb_spec.
  apply SFleb_right_ordered.
Qed.

(** [max] never moves below a bound it already meets. *)
Lemma max_keeps_bound (a e x : float) :
  (a <? x)%float = false -> (Py.max a e <? x)%float = false.
Proof.
  intros Ha. unfold Py.max. destruct (a <? e)%float eqn:Hae; [| exact Ha].
  destruct (e <? x)%float eqn:Hex; [| reflexivity].
  now rewrite (ltb_trans _ _ _ Hae Hex) in Ha.
Qed.

Lemma max_covers_right (a e : float) : (Py.max a e <? e)%float = false.
Proof.
  unfold Py.max. destruct (a <? e)%float eqn:Hae; [apply ltb_irrefl | exact Hae].
Qed.

Lemma max_ordered (a e : float) :
  (a =? a)%float = true -> (Py.max a e =? Py.max a e)%float = true.
Proof.
  intros Ha. unfold Py.max. destruct (a <? e)%float eqn:Hae; [| exact Ha].
  exact (ltb_right_ordered _ _ Hae).
Qed.

End FloatOrder.

(** ** Result normalisation *)

Section NormalizerFacts.
Import Normalizer.

(** The running maximum over a list of end times. *)
Lemma fold_max_keeps_bound (l : list float) :
  forall a x, (a <? x)%float = false ->
              (fold_left Py.max l a <? x)%float = false.
Proof.
  induction l as [| e l IH]; intros a x Ha; simpl; [exact Ha |].
  apply IH. now apply max_keeps_bound.
Qed.

Lemma fold_max_upper (l : list float) :
  forall a e, In e l -> (fold_left Py.max l a <? e)%float = false.
Proof.
  induction l as [| e0 l IH]; intros a e Hin; simpl; [contradiction |].
  destruct Hin as [-> | Hin].
  - apply fold_max_keeps_bound, max_covers_right.
  - now apply IH.
Qed.

Lemma fold_max_pick (l : list float) :
  forall a, fold_left Py.max l a = a \/ In (fold_left Py.max l a) l.
Proof.
  induction l as [| e l IH]; intros a; simpl; [now left |].
  destruct (IH (Py.max a e)) as [Heq | Hin]; [| now right; right].
  rewrite Heq. unfold Py.max. destruct (a <? e)%float; [right | left]; auto.
Qed.

Lemma fold_max_ordered (l : list float) :
  forall a, (a =? a)%float = true ->
            (fold_left Py.max l a =? fold_left Py.max l a)%float = true.
Proof.
  induction l as [| e l IH]; intros a Ha; simpl; [exact Ha |].
  apply IH. now apply max_ordered.
Qed.

(** The loop, started from any accumulator, in closed form. *)
Lemma fold_step_segments (turns : list RawTurn) :
  forall a, acc_segments (fold_left step turns a)
            = (acc_segments a ++ map segment_of turns)%list.
Proof.
  induction turns as [| t turns IH]; intros a; simpl.
  - now rewrite app_nil_r.
  - rewrite IH. simpl. now rewrite <- app_assoc.
Qed.

Lemma fold_step_speakers (turns : list RawTurn) :
  forall a, acc_speakers (fold_left step turns a)
            = acc_speakers a ∪ list_to_set (map turn_speaker turns).
Proof.
  induction turns as [| t turns IH]; intros a; simpl.
  - set_solver.
  - rewrite IH. simpl. set_solver.
Qed.

Lemma fold_step_total (turns : list RawTurn) :
  forall a, acc_total (fold_left step turns a)
            = fold_left Py.max (map turn_end turns) (acc_total a).
Proof.
  induction turns as [| t turns IH]; intros a; simpl; [reflexivity |].
  now rewrite IH.
Qed.

Lemma size_distinct (l : list string) :
  size (list_to_set l : gset string) = length (remove_dups l).
Proof.
  rewrite <- (size_list_to_set (C := gset string) (remove_dups l))
    by apply NoDup_remove_dups.
  f_equal. apply set_eq. intros x.
  now rewrite !elem_of_list_to_set, elem_of_remove_dups.
Qed.

Lemma normalize_segments (turns : list RawTurn) :
  segments (normalize turns) = map segment_of turns.
Proof. unfold normalize, run_loop. simpl. now rewrite fold_step_segments. Qed.

Lemma normalize_speakers (turns : list RawTurn) :
  total_speakers (normalize turns)
  = length (remove_dups (map turn_speaker turns)).
Proof.
  unfold normalize, run_loop. simpl. rewrite fold_step_speakers. simpl.
  rewrite <- size_distinct. f_equal. set_solver.
Qed.

Lemma normalize_total (turns : list RawTurn) :
  total_duration (normalize turns)
  = fold_left Py.max (map turn_end turns) 0%float.
Proof. unfold normalize, run_loop. simpl. now rewrite fold_step_total. Qed.

End NormalizerFacts.

(** What the running maximum started at [0.0] is, whatever the turns: it
    is [0.0] or some turn's end time, it is ordered (not a NaN), and no
    turn ends later. *)
Lemma normalize_total_facts (turns : list RawTurn) :
  let r := Normalizer.normalize turns in
  (total_duration r = 0%float
   \/ exists t, In t turns /\ total_duration r = turn_end t)
  /\ (total_duration r =? total_duration r)%float = true
  /\ (forall t, In t turns -> (total_duration r <? turn_end t)%float = false).
Proof.
  cbn zeta. rewrite !normalize_total. split; [| split].
  - destruct (fold_max_pick (map turn_end turns) 0%float) as [Heq | Hin];
      [now left | right].
    apply in_map_iff in Hin. destruct Hin as (t & Ht & Hin). eauto.
  - now apply fold_max_ordered.
  - intros t Hin. apply fold_max_upper. now apply in_map.
Qed.

(** C2. For every non-empty sequence of raw turns, with end times at or
    after [0.0] as the timestamps of a recording are, the response has one
    segment per turn, in order, with [duration = end - start];
    [total_speakers] is the number of distinct labels; and
    [total_duration] is the maximum end time: it equals some turn's end
    time and no turn ends later (it is not the sum of the durations).  On
    the sample turns: 2 speakers, total 5.0, durations 2.0, 1.5, 2.0. *)
Theorem C2_normalize_turns (turns : list RawTurn) :
  turns <> [] ->
  (forall t, In t turns -> (0 <=? turn_end t)%float = true) ->
  let r := Normalizer.normalize turns in
  segments r = map Normalizer.segment_of turns
  /\ (forall t, seg_duration (Normalizer.segment_of t)
                = (turn_end t - turn_start t)%float
                /\ seg_speaker (Normalizer.segment_of t) = turn_speaker t
                /\ seg_start (Normalizer.segment_of t) = turn_start t
                /\ seg_end (Normalizer.segment_of t) = turn_end t)
  /\ total_speakers r = length (remove_dups (map turn_speaker turns))
  /\ (exists t, In t turns /\ (total_duration r =? turn_end t)%float = true)
  /\ (forall t, In t turns -> (turn_end t <=? total_duration r)%float = true)
  /\ (let s := Normalizer.normalize sample_turns in
      total_speakers s = 2
      /\ total_duration s = 5.0%float
      /\ map seg_duration (segments s) = [2.0; 1.5; 2.0]%float
      /\ map seg_speaker (segments s) = ["A"; "B"; "A"]).
Proof.
  intros Hne Hpos r. subst r.
  destruct (normalize_total_facts turns) as (Hpick & Hord & Hup).
  cbn zeta in Hpick, Hord, Hup.
  split; [apply normalize_segments |].
  split; [intros t; repeat split |].
  split; [apply normalize_speakers |].
  split; [| split; [| repeat split]].
  - destruct Hpick as [Hz | (t' & Hin' & Heq)].
    + destruct turns as [| t0 turns]; [contradiction |].
      exists t0. split; [now left |]. rewrite Hz.
      apply leb_not_ltb_eqb; [apply Hpos; now left |].
      rewrite <- Hz. apply Hup. now left.
    + exists t'. split; [exact Hin' |]. now rewrite <- Heq.
  - intros t Hin. apply ltb_false_leb; [exact Hord | | now apply Hup].
    exact (leb_right_ordered _ _ (Hpos t Hin)).
Qed.

Lemma C2_witness :
  exists t, In t sample_turns
            /\ (total_duration (Normalizer.normalize sample_turns)
                 =? turn_end t)%float = true.
Proof.
  refine (proj1 (proj2 (proj2 (proj2
            (C2_normalize_turns sample_turns _ _))))).
  - discriminate.
  - intros t [<- | [<- | [<- | []]]]; reflexivity.
Defined.

(** ** The request handler *)

Section HandlerFacts.
Import Eff Handler.

Local Ltac run_body :=
  unfold guarded, try_except, try_body, except_body, stage, call_pipeline,
    logger, on_world, set_temp_file, bind, get, modify, raise, lift, check,
    ret, start;
  cbn.

Lemma tmp_name_nonempty (env : RequestEnv) (rnd suffix : string) :
  exists a s, tmp_name env rnd suffix = String a s.
Proof. unfold tmp_name. destruct (tmp_dir env); simpl; eauto. Qed.

Lemma guarded_raises env pl audio w e :
  raised_in_try env pl audio e ->
  fst (guarded env pl audio (start w)) = inr (error_500 e).
Proof.
  intros [e' Hc | rnd e' Hc Hr | rnd e' Hc Hr Hw | rnd e' Hc Hr Hw He];
    run_body.
  - now rewrite Hc.
  - now rewrite Hc, Hr.
  - now rewrite Hc, Hr, Hw.
  - rewrite Hc, Hr, Hw. cbn. now rewrite lookup_insert_eq, He.
Qed.

Lemma guarded_returns env pl audio w rnd turns :
  tmp_create env (suffix_of audio) = inl rnd ->
  read_error env = None ->
  write_error env = None ->
  diarize env pl (tmp_name env rnd (suffix_of audio))
    (Some (content audio)) 2 2 2 = inl turns ->
  fst (guarded env pl audio (start w)) = inl (Normalizer.normalize turns).
Proof.
  intros Hc Hr Hw He. run_body.
  rewrite Hc, Hr, Hw. cbn. now rewrite lookup_insert_eq, He.
Qed.

(** Where the [try]/[except] pair leaves the frame. *)
Lemma guarded_frame env pl audio w :
  let fr := snd (guarded env pl audio (start w)) in
  pipeline (world fr) = pipeline w
  /\ match tmp_create env (suffix_of audio) with
     | inr _ =>
         temp_file fr = None /\ engine_calls (world fr) = engine_calls w
     | inl rnd =>
         let path := tmp_name env rnd (suffix_of audio) in
         temp_file fr = Some path
         /\ is_Some (files (world fr) !! path)
         /\ engine_calls (world fr)
            = (engine_calls w ++
               match read_error env, write_error env with
               | None, None => [the_call path]
               | _, _ => []
               end)%list
     end.
Proof.
  run_body.
  destruct (tmp_create env (suffix_of audio)) as [rnd | e]; cbn;
    [| now repeat split].
  destruct (read_error env) as [e1 |]; cbn.
  { rewrite lookup_insert_eq, app_nil_r. eauto. }
  destruct (write_error env) as [e2 |]; cbn.
  { rewrite lookup_insert_eq, app_nil_r. eauto. }
  rewrite lookup_insert_eq.
  destruct (diarize _ _ _ _ _ _ _); cbn; rewrite lookup_insert_eq; eauto.
Qed.

(** The [try]/[except] pair never consults [os.remove]. *)
Lemma guarded_with_remove env f pl audio fr :
  guarded (with_remove env f) pl audio fr = guarded env pl audio fr.
Proof. reflexivity. Qed.

(** The [finally] block. *)
Lemma finally_unstaged env w :
  finally_body env (start w) = (inl tt, start w).
Proof. reflexivity. Qed.

Lemma finally_staged env w path :
  (exists a s, path = String a s) ->
  is_Some (files w !! path) ->
  finally_body env {| world := w; temp_file := Some path |}
  = (inl tt, {| world := cleaned env path w; temp_file := Some path |}).
Proof.
  intros (a & s & ->) Hin.
  unfold finally_body, cleaned, try_except, logger, on_world, bind, get,
    modify, check, ret.
  cbn. rewrite bool_decide_eq_true_2 by exact Hin.
  now destruct (remove_error env (String a s)).
Qed.

Lemma cleaned_calls env path w :
  engine_calls (cleaned env path w) = engine_calls w.
Proof. unfold cleaned. now destruct (remove_error env path). Qed.

Lemma cleaned_removed env path w :
  remove_error env path = None -> files (cleaned env path w) !! path = None.
Proof. intros H. unfold cleaned. rewrite H. cbn. apply lookup_delete_eq. Qed.

Lemma cleaned_logged env path w e :
  remove_error env path = Some e ->
  In (WARNING, [Str ("Failed to remove temp file: " ++ str_exc e)])
     (log (cleaned env path w)).
Proof.
  intros H. unfold cleaned. rewrite H. cbn. apply in_or_app. right. now left.
Qed.

(** The whole handler, once the pipeline is loaded and the upload valid:
    the outcome of the [try]/[except] pair, then the cleanup. *)
Lemma frame_loaded env audio w pl :
  pipeline w = Some pl ->
  Validation.validate (content_type audio) (filename audio) = inl tt ->
  process_audio_frame env audio (start w)
  = (fst (guarded env pl audio (start w)),
     let fr := snd (guarded env pl audio (start w)) in
     match temp_file fr with
     | Some path =>
         {| world := cleaned env path (world fr); temp_file := Some path |}
     | None => fr
     end).
Proof.
  intros Hp Hv.
  unfold process_audio_frame, bind, get, lift, try_finally.
  cbn -[finally_body try_except try_body except_body].
  rewrite Hp, Hv. fold (guarded env pl audio).
  pose proof (guarded_frame env pl audio w) as [_ Hfr].
  cbn -[guarded] in Hfr.
  destruct (guarded env pl audio (start w)) as [r [w' tf]].
  cbn [fst snd temp_file world] in *.
  destruct (tmp_create env (suffix_of audio)) as [rnd | e].
  - destruct Hfr as (-> & Hin & _).
    rewrite finally_staged; auto using tmp_name_nonempty.
  - destruct Hfr as (-> & _). reflexivity.
Qed.

Lemma frame_unloaded env audio w :
  pipeline w = None ->
  process_audio_frame env audio (start w)
  = (inr (HTTPException 503
            "Pipeline not loaded. Please check server logs."), start w).
Proof.
  intros H. unfold process_audio_frame, bind, get, raise. cbn.
  now rewrite H.
Qed.

Lemma frame_invalid env audio w pl e :
  pipeline w = Some pl ->
  Validation.validate (content_type audio) (filename audio) = inr e ->
  process_audio_frame env audio (start w) = (inr e, start w).
Proof.
  intros Hp Hv. unfold process_audio_frame, bind, get, lift. cbn.
  now rewrite Hp, Hv.
Qed.

Lemma response_loaded env audio w pl :
  pipeline w = Some pl ->
  Validation.validate (content_type audio) (filename audio) = inl tt ->
  fst (process_audio env audio w) = fst (guarded env pl audio (start w)).
Proof.
  intros Hp Hv. unfold process_audio. fold (start w).
  now rewrite (frame_loaded env audio w pl Hp Hv).
Qed.

(** A request that stages its upload and gets turns from the engine
    answers with their normal form. *)
Lemma response_of_turns env audio w pl rnd turns :
  pipeline w = Some pl ->
  Validation.validate (content_type audio) (filename audio) = inl tt ->
  tmp_create env (suffix_of audio) = inl rnd ->
  read_error env = None ->
  write_error env = None ->
  diarize env pl (tmp_name env rnd (suffix_of audio))
    (Some (content audio)) 2 2 2 = inl turns ->
  fst (process_audio env audio w) = inl (Normalizer.normalize turns).
Proof.
  intros Hp Hv Hc Hr Hw He.
  rewrite (response_loaded env audio w pl Hp Hv).
  exact (guarded_returns env pl audio w rnd turns Hc Hr Hw He).
Qed.

(** The response never depends on what [os.remove] does. *)
Lemma response_with_remove env f audio w :
  fst (process_audio (with_remove env f) audio w)
  = fst (process_audio env audio w).
Proof.
  destruct (pipeline w) as [pl |] eqn:Hp.
  - destruct (Validation.validate (content_type audio) (filename audio))
      as [[] | e] eqn:Hv.
    + rewrite !(response_loaded _ audio w pl Hp Hv).
      now rewrite guarded_with_remove.
    + unfold process_audio. fold (start w).
      now rewrite !(frame_invalid _ audio w pl e Hp Hv).
  - unfold process_audio. fold (start w).
    now rewrite !(frame_unloaded _ audio w Hp).
Qed.

(** The calls a request adds to the engine's trace. *)
Lemma calls_added env audio w :
  exists l,
    engine_calls (snd (process_audio env audio w))
    = (engine_calls w ++ l)%list
    /\ (l = []
        \/ exists pl rnd,
             pipeline w = Some pl
             /\ Validation.validate (content_type audio) (filename audio)
                = inl tt
             /\ tmp_create env (suffix_of audio) = inl rnd
             /\ read_error env = None
             /\ write_error env = None
             /\ l = [the_call (tmp_name env rnd (suffix_of audio))]).
Proof.
  unfold process_audio. fold (start w).
  destruct (pipeline w) as [pl |] eqn:Hp.
  2: { rewrite (frame_unloaded env audio w Hp). exists []. cbn.
       rewrite app_nil_r. auto. }
  destruct (Validation.validate (content_type audio) (filename audio))
    as [[] | e] eqn:Hv.
  2: { rewrite (frame_invalid env audio w pl e Hp Hv). exists []. cbn.
       rewrite app_nil_r. auto. }
  rewrite (frame_loaded env audio w pl Hp Hv). cbn.
  pose proof (guarded_frame env pl audio w) as [_ Hfr]. cbn in Hfr.
  destruct (tmp_create env (suffix_of audio)) as [rnd | e] eqn:Hc.
  - destruct Hfr as (-> & _ & Hcalls). cbn. rewrite cleaned_calls, Hcalls.
    destruct (read_error env) eqn:Hr; [eexists; split; eauto |].
    destruct (write_error env) eqn:Hw; [eexists; split; eauto |].
    eexists; split; [reflexivity |]. right. exists pl, rnd. auto 10.
  - destruct Hfr as (-> & Hcalls). rewrite Hcalls. exists [].
    rewrite app_nil_r. auto.
Qed.

End HandlerFacts.

(** One whole request on the sample upload: the response, and the world
    afterwards (the staged file is gone, two log lines, one engine call). *)
Example process_sample :
  Handler.process_audio (sample_env (inl sample_turns) None)
    sample_upload loaded_world
  = (inl {| success := true;
            segments :=
              [{| seg_speaker := "A"; seg_start := 0.0; seg_end := 2.0;
                  seg_duration := 2.0 |};
               {| seg_speaker := "B"; seg_start := 1.5; seg_end := 3.0;
                  seg_duration := 1.5 |};
               {| seg_speaker := "A"; seg_start := 3.0; seg_end := 5.0;
                  seg_duration := 2.0 |}]%float;
            total_speakers := 2;
            total_duration := 5.0%float;
            message := Some "Successfully processed 3 segments" |},
     {| pipeline := Some sample_pipeline;
        files := ∅;
        log := [(INFO, [Str "Processing audio file: speech.wav (0 bytes)"]);
                (INFO, [Str "Processed 3 segments from 2 speakers"])];
        engine_calls := [the_call "/tmp/tmpk3x9q2ab.wav"] |}).
Proof. vm_compute. reflexivity. Qed.

(** The same request with a failing engine and a failing [os.remove]:
    the 500 of the [except] block, the file left behind, the warning. *)
Example process_sample_failing :
  Handler.process_audio
    (sample_env (inr (Exc "corrupt audio")) (Some (Exc "busy")))
    sample_upload loaded_world
  = (inr (HTTPException 500 "Error processing audio: corrupt audio"),
     {| pipeline := Some sample_pipeline;
        files := {[ "/tmp/tmpk3x9q2ab.wav" := [] ]};
        log := [(INFO, [Str "Processing audio file: speech.wav (0 bytes)"]);
                (ERROR, [Str "Error processing audio: corrupt audio"]);
                (WARNING, [Str "Failed to remove temp file: busy"])];
        engine_calls := [the_call "/tmp/tmpk3x9q2ab.wav"] |}).
Proof. vm_compute. reflexivity. Qed.

(** C1. Once [NamedTemporaryFile] has created the staged file, whatever
    happens next (the read, the write or the engine fails, or the request
    succeeds): [temp_file] holds its path; if [os.remove] succeeds the file
    is gone when the handler ends; if [os.remove] raises [e], a warning
    carrying [e] is logged; and the response is the same whatever
    [os.remove] does. *)
Theorem C1_staged_file_removed_on_every_exit
    (env : RequestEnv) (audio : UploadFile) (w : World)
    (pl : Pipeline) (rnd : string) :
  pipeline w = Some pl ->
  Validation.validate (content_type audio) (filename audio) = inl tt ->
  tmp_create env (Handler.suffix_of audio) = inl rnd ->
  let path := Handler.tmp_name env rnd (Handler.suffix_of audio) in
  let out := Handler.process_audio env audio w in
  Handler.staged env audio w = Some path
  /\ (remove_error env path = None -> files (snd out) !! path = None)
  /\ (forall e, remove_error env path = Some e ->
        In (WARNING, [Str ("Failed to remove temp file: " ++ str_exc e)])
           (log (snd out)))
  /\ (forall f, fst (Handler.process_audio (with_remove env f) audio w)
               = fst out).
Proof.
  intros Hp Hv Hc path out. subst out.
  unfold Handler.staged, Handler.process_audio. fold (start w).
  rewrite (frame_loaded env audio w pl Hp Hv).
  pose proof (guarded_frame env pl audio w) as [_ Hfr].
  cbn zeta in Hfr. rewrite Hc in Hfr. destruct Hfr as (Htf & _ & _).
  cbn [fst snd]. rewrite Htf. cbn [Handler.world Handler.temp_file].
  fold path. repeat split.
  - now apply cleaned_removed.
  - intros e He. now apply cleaned_logged.
  - intros f. pose proof (response_with_remove env f audio w) as Hr.
    unfold Handler.process_audio in Hr. fold (start w) in Hr.
    rewrite (frame_loaded env audio w pl Hp Hv) in Hr.
    destruct (Handler.process_audio_frame (with_remove env f) audio (start w)).
    exact Hr.
Qed.

Lemma C1_witness :
  files (snd (Handler.process_audio
                (sample_env (inr (Exc "corrupt audio")) None)
                sample_upload loaded_world))
    !! "/tmp/tmpk3x9q2ab.wav" = None.
Proof.
  refine (proj1 (proj2 (C1_staged_file_removed_on_every_exit
            (sample_env (inr (Exc "corrupt audio")) None)
            sample_upload loaded_world sample_pipeline "k3x9q2ab"
            eq_refl eq_refl eq_refl)) eq_refl).
Defined.

(** C5. While the global [pipeline] is [None], every call of
    [process_audio] raises the 503 and leaves the world as it found it (no
    file, no log line, no engine call), whatever the upload; and
    [health_check] reports [pipeline_loaded = false]. *)
Theorem C5_unloaded_pipeline_gives_503
    (env : RequestEnv) (audio : UploadFile) (w : World) :
  pipeline w = None ->
  Handler.process_audio env audio w
  = (inr (HTTPException 503
            "Pipeline not loaded. Please check server logs."), w)
  /\ Handler.health_check w
     = {| Handler.status := "healthy";
          Handler.service := "pyannote-audio";
          Handler.pipeline_loaded := false |}.
Proof.
  intros Hp. split.
  - unfold Handler.process_audio. fold (start w).
    now rewrite (frame_unloaded env audio w Hp).
  - unfold Handler.health_check. now rewrite Hp.
Qed.

Lemma C5_witness :
  Handler.process_audio (sample_env (inl []) None)
    {| content_type := Some "text/plain"; filename := Some "notes.txt";
       content := [] |} unloaded_world
  = (inr (HTTPException 503
            "Pipeline not loaded. Please check server logs."),
     unloaded_world).
Proof.
  exact (proj1 (C5_unloaded_pipeline_gives_503 (sample_env (inl []) None)
                  {| content_type := Some "text/plain";
                     filename := Some "notes.txt"; content := [] |}
                  unloaded_world eq_refl)).
Defined.

(** C7. With the pipeline loaded and the upload valid, any exception [e]
    raised while creating the temporary file, reading the upload, writing
    the file or running the engine becomes the one response
    [HTTPException 500 "Error processing audio: " ++ str(e)]; and a request
    adds at most one call to the engine's trace. *)
Theorem C7_failure_in_try_gives_500
    (env : RequestEnv) (audio : UploadFile) (w : World)
    (pl : Pipeline) (e : Exception) :
  pipeline w = Some pl ->
  Validation.validate (content_type audio) (filename audio) = inl tt ->
  raised_in_try env pl audio e ->
  fst (Handler.process_audio env audio w)
  = inr (HTTPException 500 ("Error processing audio: " ++ str_exc e))
  /\ (length (engine_calls (snd (Handler.process_audio env audio w)))
      <= length (engine_calls w) + 1)%nat.
Proof.
  intros Hp Hv He. split.
  - rewrite (response_loaded env audio w pl Hp Hv).
    exact (guarded_raises env pl audio w e He).
  - destruct (calls_added env audio w) as (l & -> & Hl).
    rewrite length_app.
    destruct Hl as [-> | (? & ? & _ & _ & _ & _ & _ & ->)]; simpl; lia.
Qed.

Lemma C7_witness :
  fst (Handler.process_audio
         (sample_env (inr (Exc "corrupt audio")) None)
         sample_upload loaded_world)
  = inr (HTTPException 500 "Error processing audio: corrupt audio").
Proof.
  refine (proj1 (C7_failure_in_try_gives_500
            (sample_env (inr (Exc "corrupt audio")) None)
            sample_upload loaded_world sample_pipeline (Exc "corrupt audio")
            eq_refl eq_refl _)).
  apply (raised_by_engine _ _ _ "k3x9q2ab"); reflexivity.
Defined.

(** C8. When the engine returns no turn, the request succeeds: the handler
    returns a response with [success = true], no segment, 0 speakers
    and [total_duration = 0.0]. *)
Theorem C8_zero_turns_is_success
    (env : RequestEnv) (audio : UploadFile) (w : World)
    (pl : Pipeline) (rnd : string) :
  pipeline w = Some pl ->
  Validation.validate (content_type audio) (filename audio) = inl tt ->
  tmp_create env (Handler.suffix_of audio) = inl rnd ->
  read_error env = None ->
  write_error env = None ->
  diarize env pl (Handler.tmp_name env rnd (Handler.suffix_of audio))
    (Some (content audio)) 2 2 2 = inl [] ->
  fst (Handler.process_audio env audio w)
  = inl {| success := true;
           segments := [];
           total_speakers := 0;
           total_duration := 0%float;
           message := Some "Successfully processed 0 segments" |}.
Proof.
  intros Hp Hv Hc Hr Hw He.
  now rewrite (response_of_turns env audio w pl rnd [] Hp Hv Hc Hr Hw He).
Qed.

Lemma C8_witness :
  fst (Handler.process_audio (sample_env (inl []) None)
         sample_upload loaded_world)
  = inl {| success := true;
           segments := [];
           total_speakers := 0;
           total_duration := 0%float;
           message := Some "Successfully processed 0 segments" |}.
Proof.
  exact (C8_zero_turns_is_success (sample_env (inl []) None)
           sample_upload loaded_world sample_pipeline "k3x9q2ab"
           eq_refl eq_refl eq_refl eq_refl eq_refl eq_refl).
Defined.

(** C9. The calls a request adds to the engine's trace all carry
    [num_speakers = min_speakers = max_speakers = 2], whatever the upload
    and the surroundings; and a request whose staging succeeds adds
    exactly one such call, on the staged path. *)
Theorem C9_engine_called_with_two_speakers
    (env : RequestEnv) (audio : UploadFile) (w : World) :
  exists l,
    engine_calls (snd (Handler.process_audio env audio w))
    = (engine_calls w ++ l)%list
    /\ Forall (fun c => num_speakers c = 2%Z /\ min_speakers c = 2%Z
                       /\ max_speakers c = 2%Z) l
    /\ (forall pl rnd,
          pipeline w = Some pl ->
          Validation.validate (content_type audio) (filename audio)
          = inl tt ->
          tmp_create env (Handler.suffix_of audio) = inl rnd ->
          read_error env = None ->
          write_error env = None ->
          l = [{| call_path :=
                    Handler.tmp_name env rnd (Handler.suffix_of audio);
                  num_speakers := 2; min_speakers := 2;
                  max_speakers := 2 |}]).
Proof.
  destruct (calls_added env audio w) as (l & Hcalls & Hl).
  exists l. split; [exact Hcalls |].
  destruct Hl as [-> | (pl & rnd & Hp & Hv & Hc & Hr & Hw & ->)].
  - split; [constructor |].
    intros pl rnd Hp Hv Hc Hr Hw. exfalso.
    unfold Handler.process_audio in Hcalls. fold (start w) in Hcalls.
    rewrite (frame_loaded env audio w pl Hp Hv) in Hcalls.
    pose proof (guarded_frame env pl audio w) as [_ Hfr].
    cbn zeta in Hfr. rewrite Hc, Hr, Hw in Hfr.
    destruct Hfr as (Htf & _ & Hcs).
    cbn [fst snd] in Hcalls. rewrite Htf in Hcalls.
    cbn [Handler.world] in Hcalls. rewrite cleaned_calls, Hcs in Hcalls.
    apply app_inv_head in Hcalls. discriminate.
  - split; [repeat constructor |].
    intros pl' rnd' _ _ Hc' _ _. rewrite Hc in Hc'. now inversion Hc'.
Qed.

(** ** Start-up *)

Section StartupFacts.
Import Eff Startup.

Lemma same_but_log_refl w : same_but_log w w.
Proof. repeat split. Qed.

Lemma same_but_log_trans w1 w2 w3 :
  same_but_log w1 w2 -> same_but_log w2 w3 -> same_but_log w1 w3.
Proof. unfold same_but_log. intuition congruence. Qed.

Lemma same_but_log_add r w : same_but_log w (add_log r w).
Proof. repeat split. Qed.

(** One iteration of the segmentation loop. *)
Lemma override_seg_spec seg ck w :
  exists seg' w',
    override_seg seg ck w = (inl seg', w')
    /\ same_but_log w w'
    /\ forall k, seg' !! k =
         match seg !! k with
         | Some old => Some (if String.eqb k (snd ck)
                             then overridden old (fst ck) else old)
         | None => None
         end.
Proof.
  destruct ck as [[v |] key]; unfold override_seg; cbn [fst snd].
  - destruct (seg !! key) as [old |] eqn:Hk; cbn [is_some].
    + eexists _, _. split; [reflexivity |]. split; [apply same_but_log_add |].
      intros k. destruct (String.eqb_spec k key) as [-> | Hne].
      * rewrite lookup_insert_eq, Hk. reflexivity.
      * rewrite lookup_insert_ne by congruence. now destruct (seg !! k).
    + eexists _, _. split; [reflexivity |]. split; [apply same_but_log_refl |].
      intros k. destruct (String.eqb_spec k key) as [-> | Hne].
      * now rewrite Hk.
      * now destruct (seg !! k).
  - eexists _, _. split; [reflexivity |]. split; [apply same_but_log_refl |].
    intros k. destruct (seg !! k); [| reflexivity].
    now destruct (String.eqb k key).
Qed.

Lemma for_each_override_spec l :
  forall seg w,
  exists seg' w',
    for_each l override_seg seg w = (inl seg', w')
    /\ same_but_log w w'
    /\ forall k, seg' !! k = after_all l k <$> seg !! k.
Proof.
  induction l as [| ck l IH]; intros seg w.
  - exists seg, w. split; [reflexivity |]. split; [apply same_but_log_refl |].
    intros k. now destruct (seg !! k).
  - destruct (override_seg_spec seg ck w) as (seg1 & w1 & H1 & Hw1 & Hs1).
    destruct (IH seg1 w1) as (seg2 & w2 & H2 & Hw2 & Hs2).
    exists seg2, w2. split.
    + cbn [for_each]. unfold bind. now rewrite H1.
    + split; [eapply same_but_log_trans; eauto |].
      intros k. rewrite Hs2, Hs1. now destruct (seg !! k).
Qed.

Lemma after_all_seg cfg k old :
  after_all (seg_overrides cfg) k old = overridden old (seg_target cfg k).
Proof.
  unfold after_all, seg_overrides, seg_target. cbn [fold_left fst snd].
  repeat match goal with
         | |- context [String.eqb k ?s] =>
             destruct (String.eqb_spec k s) as [-> | ?]; cbn
         end;
    repeat match goal with
           | |- context [overridden _ ?t] => destruct t; cbn
           end; try reflexivity; try congruence.
Qed.

Lemma bind_returns {S A B} (m : M S A) (k : A -> M S B) s a s' :
  m s = (inl a, s') -> bind m k s = k a s'.
Proof. intros H. unfold bind. now rewrite H. Qed.

Lemma bind_raises {S A B} (m : M S A) (k : A -> M S B) s e s' :
  m s = (inr e, s') -> bind m k s = (inr e, s').
Proof. intros H. unfold bind. now rewrite H. Qed.

(** Lines 81-83: only [clustering][threshold] can move, and only if it
    is there. *)
Lemma override_clustering_spec cfg (hp : Hparams) w :
  exists hp' w',
    override_clustering cfg hp w = (inl hp', w')
    /\ same_but_log w w'
    /\ (forall c, hp' !! c = None <-> hp !! c = None)
    /\ forall c k,
         param hp' c k
         = (fun old => if String.eqb c "clustering" && String.eqb k "threshold"
                       then overridden old (CLUSTERING_THRESHOLD cfg)
                       else old) <$> param hp c k.
Proof.
  assert (Hsame : forall c k,
             param hp c k
             = (fun old => if String.eqb c "clustering"
                                && String.eqb k "threshold"
                           then overridden old None else old)
                 <$> param hp c k).
  { intros c k. destruct (param hp c k); [| reflexivity]. cbn.
    now destruct (_ && _). }
  unfold override_clustering.
  destruct (CLUSTERING_THRESHOLD cfg) as [v |].
  2: { exists hp, w. repeat split; auto. }
  destruct (hp !! "clustering") as [g |] eqn:Hg.
  2: { exists hp, w. split; [reflexivity |].
       split; [apply same_but_log_refl |]. split; [tauto |].
       intros c k. unfold param.
       destruct (String.eqb_spec c "clustering") as [-> | Hne].
       - now rewrite Hg.
       - now destruct (hp !! c) as [g |]; [destruct (g !! k) |]. }
  destruct (g !! "threshold") as [old |] eqn:Hk; cbn [is_some].
  - eexists _, _. split; [reflexivity |].
    split; [apply same_but_log_add |]. split.
    + intros c. destruct (String.eqb_spec c "clustering") as [-> | Hne].
      * rewrite lookup_insert_eq, Hg. split; discriminate.
      * rewrite lookup_insert_ne by congruence. tauto.
    + intros c k. unfold param.
      destruct (String.eqb_spec c "clustering") as [-> | Hne].
      * rewrite lookup_insert_eq, Hg.
        destruct (String.eqb_spec k "threshold") as [-> | Hnk].
        -- now rewrite lookup_insert_eq, Hk.
        -- rewrite lookup_insert_ne by congruence. now destruct (g !! k).
      * rewrite lookup_insert_ne by congruence.
        now destruct (hp !! c) as [g' |]; [destruct (g' !! k) |].
  - exists hp, w. split; [reflexivity |].
    split; [apply same_but_log_refl |]. split; [tauto |].
    intros c k. unfold param.
    destruct (String.eqb_spec c "clustering") as [-> | Hne].
    + rewrite Hg. destruct (String.eqb_spec k "threshold") as [-> | Hnk].
      * now rewrite Hk.
      * now destruct (g !! k).
    + now destruct (hp !! c) as [g' |]; [destruct (g' !! k) |].
Qed.

(** Lines 84-95: only keys of [segmentation] that are there can move. *)
Lemma override_segmentation_spec cfg (hp : Hparams) w :
  exists hp' w',
    override_segmentation cfg hp w = (inl hp', w')
    /\ same_but_log w w'
    /\ (forall c, hp' !! c = None <-> hp !! c = None)
    /\ forall c k,
         param hp' c k
         = (fun old => if String.eqb c "segmentation"
                       then overridden old (seg_target cfg k)
                       else old) <$> param hp c k.
Proof.
  unfold override_segmentation.
  destruct (hp !! "segmentation") as [seg |] eqn:Hseg.
  - destruct (for_each_override_spec (seg_overrides cfg) seg w)
      as (seg' & w' & Hrun & Hw & Hlk).
    eexists _, w'. split.
    { rewrite (bind_returns _ _ _ _ _ Hrun). reflexivity. }
    split; [exact Hw |]. split.
    + intros c. destruct (String.eqb_spec c "segmentation") as [-> | Hne].
      * rewrite lookup_insert_eq, Hseg. split; discriminate.
      * rewrite lookup_insert_ne by congruence. tauto.
    + intros c k. unfold param.
      destruct (String.eqb_spec c "segmentation") as [-> | Hne].
      * rewrite lookup_insert_eq, Hseg, Hlk.
        destruct (seg !! k); [| reflexivity].
        cbn [fmap option_fmap option_map]. now rewrite after_all_seg.
      * rewrite lookup_insert_ne by congruence.
        now destruct (hp !! c) as [g' |]; [destruct (g' !! k) |].
  - exists hp, w. split; [reflexivity |].
    split; [apply same_but_log_refl |]. split; [tauto |].
    intros c k. unfold param.
    destruct (String.eqb_spec c "segmentation") as [-> | Hne].
    + now rewrite Hseg.
    + now destruct (hp !! c) as [g' |]; [destruct (g' !! k) |].
Qed.

(** Both override steps in a row. *)
Lemma overrides_spec cfg (hp : Hparams) w :
  exists hp' w',
    bind (override_clustering cfg hp) (override_segmentation cfg) w
    = (inl hp', w')
    /\ same_but_log w w'
    /\ (forall c, hp' !! c = None <-> hp !! c = None)
    /\ forall c k,
         param hp' c k
         = (fun old => overridden old (target cfg c k)) <$> param hp c k.
Proof.
  destruct (override_clustering_spec cfg hp w)
    as (hp1 & w1 & H1 & Hw1 & Hd1 & Hp1).
  destruct (override_segmentation_spec cfg hp1 w1)
    as (hp2 & w2 & H2 & Hw2 & Hd2 & Hp2).
  exists hp2, w2. split; [now rewrite (bind_returns _ _ _ _ _ H1) |].
  split; [eapply same_but_log_trans; eauto |]. split.
  - intros c. now rewrite Hd2, Hd1.
  - intros c k. rewrite Hp2, Hp1. destruct (param hp c k); [| reflexivity].
    cbn. f_equal. unfold target.
    destruct (String.eqb_spec c "clustering") as [-> | Hc]; cbn.
    + now destruct (String.eqb k "threshold").
    + now destruct (String.eqb c "segmentation").
Qed.

End StartupFacts.

Section LoadFacts.
Import Eff Startup.

Lemma bind_assoc {S A B C} (m : M S A) (k1 : A -> M S B) (k2 : B -> M S C) s :
  bind m (fun a => bind (k1 a) k2) s = bind (bind m k1) k2 s.
Proof. unfold bind. now destruct (m s) as [[a | e] s']. Qed.

(** [load_pipeline] after a successful [from_pretrained], in terms of the
    two override steps. *)
Lemma load_pipeline_loaded env cfg w pl :
  from_pretrained env checkpoint_name (used_token env) = inl pl ->
  any_tunable cfg = true ->
  exists w1,
    same_but_log (set_pipeline (Some pl) w) w1
    /\ load_pipeline env cfg w
       = try_except
           (bind (bind (override_clustering cfg (parameters pl))
                       (override_segmentation cfg))
                 (fun hparams =>
                    bind (check (instantiate_error env pl hparams))
                         (fun _ =>
                            modify (set_pipeline
                                      (Some {| checkpoint := checkpoint pl;
                                               token := token pl;
                                               parameters := hparams |})))))
           (fun e =>
              bind (logger ERROR
                      [Str ("Failed to load pipeline: " ++ str_exc e)])
                   (fun _ => raise e))
           w1.
Proof.
  intros Hload Hany. unfold used_token in Hload.
  unfold load_pipeline, load_body. rewrite Hany.
  destruct (Py.truthy (HF_TOKEN env)).
  - eexists. split; [| unfold try_except, bind at 1 2 3 4, logger, modify, lift;
                        cbn [fst snd]; rewrite Hload;
                        rewrite <- bind_assoc; reflexivity].
    repeat split.
  - eexists. split; [| unfold try_except, bind at 1 2 3 4 5, logger, modify, lift;
                        cbn [fst snd]; rewrite Hload;
                        rewrite <- bind_assoc; reflexivity].
    repeat split.
Qed.

End LoadFacts.

(** C6. After [from_pretrained] has returned a pipeline, and with at least
    one tunable set, [load_pipeline] builds a merged parameter set that
    differs from the pipeline's own exactly where a set tunable aims at a
    key that is there (the stored value becomes the tunable); a tunable
    aimed at a key that is not there changes nothing and adds no key.  The
    merged set is handed to [instantiate]: if that accepts it,
    [load_pipeline] returns and the global [pipeline] holds the pipeline
    with the merged parameters; the only exception is [instantiate]'s
    own. *)
Theorem C6_overrides_apply_only_to_present_keys
    (env : StartupEnv) (cfg : Tunables) (w : World) (pl : Pipeline) :
  from_pretrained env Startup.checkpoint_name (used_token env) = inl pl ->
  Startup.any_tunable cfg = true ->
  exists merged : Hparams,
    (forall c k,
        param merged c k
        = match param (parameters pl) c k with
          | Some old => Some (overridden old (target cfg c k))
          | None => None
          end)
    /\ (forall c, merged !! c = None <-> parameters pl !! c = None)
    /\ match instantiate_error env pl merged with
       | None =>
           fst (Startup.load_pipeline env cfg w) = inl tt
           /\ pipeline (snd (Startup.load_pipeline env cfg w))
              = Some {| checkpoint := checkpoint pl; token := token pl;
                        parameters := merged |}
       | Some e => fst (Startup.load_pipeline env cfg w) = inr e
       end.
Proof.
  intros Hload Hany.
  destruct (load_pipeline_loaded env cfg w pl Hload Hany) as (w1 & _ & ->).
  destruct (overrides_spec cfg (parameters pl) w1)
    as (merged & w2 & Hrun & _ & Hdom & Hpar).
  exists merged. split; [| split; [exact Hdom |]].
  - intros c k. rewrite Hpar. now destruct (param (parameters pl) c k).
  - unfold Eff.try_except.
    rewrite (bind_returns _ _ _ _ _ Hrun).
    unfold Eff.bind, Eff.check, Eff.modify, Eff.raise, Startup.logger.
    now destruct (instantiate_error env pl merged).
Qed.

Lemma C6_witness :
  exists merged : Hparams,
    (forall c k,
        param merged c k
        = match param (parameters sample_loaded) c k with
          | Some old => Some (overridden old (target tunables c k))
          | None => None
          end)
    /\ (forall c, merged !! c = None <-> parameters sample_loaded !! c = None)
    /\ match instantiate_error sample_startup sample_loaded merged with
       | None =>
           fst (Startup.load_pipeline sample_startup tunables unloaded_world)
           = inl tt
           /\ pipeline (snd (Startup.load_pipeline sample_startup tunables
                               unloaded_world))
              = Some {| checkpoint := checkpoint sample_loaded;
                        token := token sample_loaded;
                        parameters := merged |}
       | Some e =>
           fst (Startup.load_pipeline sample_startup tunables unloaded_world)
           = inr e
       end.
Proof.
  exact (C6_overrides_apply_only_to_present_keys sample_startup tunables
           unloaded_world sample_loaded eq_refl eq_refl).
Defined.

(** The sample start-up, run: the clustering threshold and the one
    segmentation key that is there are overridden; [onset], [offset] and
    [min_duration_on], which are not there, are skipped and stay absent. *)
Example load_sample :
  let out := Startup.load_pipeline sample_startup tunables unloaded_world in
  fst out = inl tt
  /\ (parameters <$> pipeline (snd out))
     = Some {[ "clustering" := {[ "threshold" := 0.80%float;
                                  "Fa" := 0.07%float ]};
               "segmentation" := {[ "min_duration_off" := 0.0%float ]} ]}
  /\ log (snd out)
     = [(INFO, [Str "Loading pyannote-audio pipeline..."]);
        (INFO, [Str "Pipeline loaded successfully!"]);
        (INFO, [Str "Clustering threshold set to "; Flt 0.80%float]);
        (INFO, [Str "Segmentation min_duration_off set to ";
                Flt 0.0%float])].
Proof. vm_compute. repeat split. Qed.

(* ===================================================================== *)
(** * Further properties of the code *)
(* ===================================================================== *)

(** ** [os.path.splitext] in general *)

Section MoreSplitext.

Lemma rfind_from_cases c s : forall i,
  (0 <= i)%Z ->
  (Py.rfind_from c s i = (-1)%Z /\ has_char c s = false)
  \/ exists s1 s2,
       s = s1 ++ String c s2
       /\ Py.rfind_from c s i = (i + Z.of_nat (String.length s1))%Z
       /\ has_char c s2 = false.
Proof.
  induction s as [| a s IH]; intros i Hi; [left; split; reflexivity |].
  simpl. destruct (IH (i + 1)%Z ltac:(lia)) as [[Hr Hn] | (s1 & s2 & -> & Hr & Hn)].
  - rewrite Hr. simpl. destruct (Ascii.eqb_spec a c) as [-> | Hne].
    + right. exists "", s. simpl. repeat split; [lia | exact Hn].
    + left. split; [reflexivity | exact Hn].
  - right. exists (String a s1), s2. rewrite Hr.
    destruct (Z.leb_spec 0 (i + 1 + Z.of_nat (String.length s1))); [| lia].
    simpl. repeat split; [lia | exact Hn].
Qed.

Lemma rfind_from_reaches c t : forall s i,
  (0 <= i)%Z -> has_char c t = true ->
  (i + Z.of_nat (String.length s) <= Py.rfind_from c (s ++ t) i)%Z.
Proof.
  intros s i Hi Ht.
  destruct (rfind_from_cases c (s ++ t) i Hi)
    as [[_ Hn] | (s1 & s2 & Heq & -> & Hn)].
  - rewrite has_char_app, Ht, orb_true_r in Hn. discriminate.
  - (* the last occurrence lies in t *)
    destruct (Nat.lt_ge_cases (String.length s1) (String.length s)) as [Hlt | Hge];
      [| lia].
    exfalso. revert s1 Heq Hlt. induction s as [| a s IHs]; intros s1 Heq Hlt.
    + simpl in Hlt. lia.
    + destruct s1 as [| b s1]; simpl in Heq; inversion Heq; subst.
      * rewrite has_char_app, Ht, orb_true_r in Hn. discriminate.
      * apply (IHs s1); [assumption | simpl in Hlt; lia].
Qed.

Lemma splitext_loop_cases p d n : forall f,
  Py.splitext_loop p d n f = None
  \/ Py.splitext_loop p d n f = Some (Py.slice_to p d, Py.slice_from p d).
Proof.
  induction n as [| n IH]; intros f; simpl; [now left |].
  destruct (negb _); [now right | apply IH].
Qed.

(** [os.path.splitext] either finds no extension, or cuts the path at its
    last dot, which then lies after the last separator. *)
Lemma splitext_cases (p : string) :
  Py.splitext p = (p, "")
  \/ exists root ext,
       p = root ++ String "." ext
       /\ Py.splitext p = (root, String "." ext)
       /\ has_char "." ext = false
       /\ has_char "/" ext = false.
Proof.
  unfold Py.splitext, Py.rfind.
  destruct (Z.ltb_spec (Py.rfind_from "/" p 0) (Py.rfind_from "." p 0))
    as [Hlt | Hge]; [| now left].
  destruct (splitext_loop_cases p (Py.rfind_from "." p 0)
              (Z.to_nat (Py.rfind_from "." p 0 - (Py.rfind_from "/" p 0 + 1)))
              (Py.rfind_from "/" p 0 + 1)) as [-> | ->]; [now left |].
  right.
  destruct (rfind_from_cases "." p 0 ltac:(lia))
    as [[Hr _] | (s1 & s2 & Hp & Hr & Hn)].
  { destruct (rfind_from_cases "/" p 0 ltac:(lia))
      as [[Hs _] | (? & ? & _ & Hs & _)]; lia. }
  exists s1, s2. split; [exact Hp |]. split; [| split; [exact Hn |]].
  - rewrite Hr. unfold Py.slice_to, Py.slice_from.
    replace (Z.to_nat (0 + Z.of_nat (String.length s1)))
      with (String.length s1) by lia.
    rewrite Hp at 1 2 3.
    rewrite substring_prefix, substring_suffix, str_length_app.
    replace (String.length s1 + String.length (String "." s2)
             - String.length s1)
      with (String.length (String "." s2)) by lia.
    now rewrite substring_all.
  - destruct (has_char "/" s2) eqn:Hs; [exfalso | reflexivity].
    assert (Hs' : has_char "/" (String "." s2) = true) by exact Hs.
    pose proof (rfind_from_reaches "/" (String "." s2) s1 0 ltac:(lia) Hs') as Hb.
    rewrite <- Hp in Hb. lia.
Qed.

End MoreSplitext.

(** ** The request handler, continued *)

Section MoreHandlerFacts.
Import Eff Handler.

Local Ltac run_body :=
  unfold guarded, try_except, try_body, except_body, stage, call_pipeline,
    logger, on_world, set_temp_file, bind, get, modify, raise, lift, check,
    ret, start;
  cbn.

Lemma validate_raises_400 ct fn e :
  Validation.validate ct fn = inr e -> exists d, e = HTTPException 400 d.
Proof.
  unfold Validation.validate.
  repeat match goal with
         | |- context [if ?b then _ else _] => destruct b
         end; intros H; inversion H; eauto.
Qed.

Lemma guarded_outcome env pl audio w :
  (exists r, fst (guarded env pl audio (start w)) = inl r)
  \/ exists e, fst (guarded env pl audio (start w)) = inr (error_500 e).
Proof.
  run_body.
  destruct (tmp_create env (suffix_of audio)) as [rnd | e]; cbn; [| eauto].
  destruct (read_error env) as [e |]; cbn; [eauto |].
  destruct (write_error env) as [e |]; cbn; [eauto |].
  destruct (diarize _ _ _ _ _ _ _); cbn; eauto.
Qed.

(** The files the [try]/[except] pair leaves: the ones it found, plus the
    staged one. *)
Lemma guarded_files env pl audio w :
  let fr := snd (guarded env pl audio (start w)) in
  match tmp_create env (suffix_of audio) with
  | inr _ => files (world fr) = files w
  | inl rnd =>
      exists c, files (world fr)
                = <[tmp_name env rnd (suffix_of audio) := c]> (files w)
  end.
Proof.
  run_body.
  destruct (tmp_create env (suffix_of audio)) as [rnd | e]; cbn;
    [| reflexivity].
  destruct (read_error env) as [e1 |]; cbn; [eauto |].
  destruct (write_error env) as [e2 |]; cbn.
  { eauto. }
  destruct (diarize _ _ _ _ _ _ _); cbn; rewrite insert_insert_eq; eauto.
Qed.

End MoreHandlerFacts.

Section HandlerExtras.
Import Eff Handler.

Lemma str_app_assoc (a b c : string) : (a ++ b) ++ c = a ++ (b ++ c).
Proof.
  induction a as [| x a IH]; [reflexivity |].
  change (String x ((a ++ b) ++ c) = String x (a ++ (b ++ c))).
  now rewrite IH.
Qed.

(** The staged path of a run, read off the surroundings. *)
Lemma staged_cases env audio w :
  staged env audio w
  = match pipeline w,
          Validation.validate (content_type audio) (filename audio),
          tmp_create env (suffix_of audio) with
    | Some _, inl _, inl rnd => Some (tmp_name env rnd (suffix_of audio))
    | _, _, _ => None
    end.
Proof.
  unfold staged. fold (start w).
  destruct (pipeline w) as [pl |] eqn:Hp.
  2: { now rewrite (frame_unloaded env audio w Hp). }
  destruct (Validation.validate (content_type audio) (filename audio))
    as [[] | e] eqn:Hv.
  2: { now rewrite (frame_invalid env audio w pl e Hp Hv). }
  rewrite (frame_loaded env audio w pl Hp Hv). cbn [snd].
  pose proof (guarded_frame env pl audio w) as [_ Hfr]. cbn zeta in Hfr.
  destruct (tmp_create env (suffix_of audio)) as [rnd | e].
  - destruct Hfr as (Htf & _). now rewrite Htf.
  - destruct Hfr as (Htf & _). rewrite Htf. exact Htf.
Qed.

Lemma suffix_of_dotted audio :
  exists ext,
    suffix_of audio = String "." ext
    /\ has_char "/" ext = false
    /\ has_char "." ext = false.
Proof.
  unfold suffix_of.
  destruct (splitext_cases (Py.str_or (filename audio) "audio"))
    as [-> | (root & ext & _ & -> & Hd & Hs)].
  - exists "wav". repeat split.
  - exists ext. repeat split; assumption.
Qed.

End HandlerExtras.

(** X1. Whatever the upload, the world and the surroundings, an exception
    of class [Exception] that leaves [process_audio] is an [HTTPException]
    with status 400, 500 or 503: every [Exception] raised while staging or
    diarizing is caught and turned into the 500, and [os.remove]'s are
    swallowed.  (What [except Exception] does not catch, such as a task
    cancellation, is outside the type [Exception] and not spoken of.) *)
Theorem process_audio_raises_only_http
    (env : RequestEnv) (audio : UploadFile) (w : World) (e : Exception) :
  fst (Handler.process_audio env audio w) = inr e ->
  exists code detail,
    e = HTTPException code detail
    /\ (code = 400 \/ code = 500 \/ code = 503)%Z.
Proof.
  intros He. unfold Handler.process_audio in He. fold (start w) in He.
  destruct (pipeline w) as [pl |] eqn:Hp.
  2: { rewrite (frame_unloaded env audio w Hp) in He. inversion He. eauto 6. }
  destruct (Validation.validate (content_type audio) (filename audio))
    as [[] | e'] eqn:Hv.
  2: { rewrite (frame_invalid env audio w pl e' Hp Hv) in He.
       inversion He; subst.
       destruct (validate_raises_400 _ _ _ Hv) as (d & ->). eauto 6. }
  rewrite (frame_loaded env audio w pl Hp Hv) in He. cbn [fst] in He.
  destruct (guarded_outcome env pl audio w) as [(r & Hr) | (e' & Hr)];
    rewrite Hr in He; inversion He. unfold error_500. eauto 6.
Qed.

Lemma process_audio_raises_only_http_witness :
  exists code detail,
    HTTPException 500 "Error processing audio: corrupt audio"
    = HTTPException code detail
    /\ (code = 400 \/ code = 500 \/ code = 503)%Z.
Proof.
  exact (process_audio_raises_only_http
           (sample_env (inr (Exc "corrupt audio")) None)
           sample_upload loaded_world _ eq_refl).
Defined.

(** X2. An upload that validation rejects leaves no trace: the world
    (files, log, engine trace, global) is exactly as before, no file is
    staged, and with the pipeline loaded the response is validation's own
    exception. *)
Theorem rejected_upload_leaves_no_trace
    (env : RequestEnv) (audio : UploadFile) (w : World) (e : Exception) :
  Validation.validate (content_type audio) (filename audio) = inr e ->
  snd (Handler.process_audio env audio w) = w
  /\ Handler.staged env audio w = None
  /\ (forall pl, pipeline w = Some pl ->
        fst (Handler.process_audio env audio w) = inr e).
Proof.
  intros Hv. rewrite staged_cases, Hv.
  unfold Handler.process_audio. fold (start w).
  destruct (pipeline w) as [pl |] eqn:Hp.
  - rewrite (frame_invalid env audio w pl e Hp Hv).
    split; [reflexivity |]. split; [reflexivity | intros; reflexivity].
  - rewrite (frame_unloaded env audio w Hp).
    split; [reflexivity |]. split; [reflexivity | intros; discriminate].
Qed.

Lemma rejected_upload_leaves_no_trace_witness :
  snd (Handler.process_audio (sample_env (inl sample_turns) None)
         {| content_type := Some "text/plain"; filename := Some "speech.wav";
            content := [] |} loaded_world) = loaded_world.
Proof.
  exact (proj1 (rejected_upload_leaves_no_trace
                  (sample_env (inl sample_turns) None)
                  {| content_type := Some "text/plain";
                     filename := Some "speech.wav"; content := [] |}
                  loaded_world _ eq_refl)).
Defined.

(** X3. The engine is called only by a request that found the pipeline
    loaded, passed validation, created its temporary file, read the upload
    and wrote it: if the engine trace changed, all five held. *)
Theorem engine_runs_only_after_staging
    (env : RequestEnv) (audio : UploadFile) (w : World) :
  engine_calls (snd (Handler.process_audio env audio w)) <> engine_calls w ->
  exists pl rnd,
    pipeline w = Some pl
    /\ Validation.validate (content_type audio) (filename audio) = inl tt
    /\ tmp_create env (Handler.suffix_of audio) = inl rnd
    /\ read_error env = None
    /\ write_error env = None.
Proof.
  intros Hne. destruct (calls_added env audio w) as (l & Hl & Hc).
  destruct Hc as [-> | (pl & rnd & Hp & Hv & Hcr & Hr & Hw & _)].
  - rewrite app_nil_r in Hl. contradiction.
  - eauto 10.
Qed.

Lemma engine_runs_only_after_staging_witness :
  exists pl rnd,
    pipeline loaded_world = Some pl
    /\ Validation.validate (content_type sample_upload)
         (filename sample_upload) = inl tt
    /\ tmp_create (sample_env (inl []) None)
         (Handler.suffix_of sample_upload) = inl rnd
    /\ read_error (sample_env (inl []) None) = None
    /\ write_error (sample_env (inl []) None) = None.
Proof.
  apply (engine_runs_only_after_staging (sample_env (inl []) None)
           sample_upload loaded_world).
  vm_compute. discriminate.
Defined.

(** X4. A request touches no file but its own staged one; and when
    [os.remove] succeeds on a staged path that did not exist before, the
    temporary-file area is left exactly as it was found. *)
Theorem temp_area_kept
    (env : RequestEnv) (audio : UploadFile) (w : World) :
  let w' := snd (Handler.process_audio env audio w) in
  (forall p, Handler.staged env audio w <> Some p ->
             files w' !! p = files w !! p)
  /\ (forall path,
        Handler.staged env audio w = Some path ->
        remove_error env path = None ->
        files w !! path = None ->
        files w' = files w).
Proof.
  cbn zeta. rewrite staged_cases.
  unfold Handler.process_audio. fold (start w).
  destruct (pipeline w) as [pl |] eqn:Hp.
  2: { rewrite (frame_unloaded env audio w Hp). split; [reflexivity |].
       intros path H. discriminate. }
  destruct (Validation.validate (content_type audio) (filename audio))
    as [[] | e] eqn:Hv.
  2: { rewrite (frame_invalid env audio w pl e Hp Hv). split; [reflexivity |].
       intros path H. discriminate. }
  rewrite (frame_loaded env audio w pl Hp Hv). cbn [snd].
  pose proof (guarded_frame env pl audio w) as [_ Hfr].
  pose proof (guarded_files env pl audio w) as Hfiles.
  cbn zeta in Hfr, Hfiles.
  destruct (tmp_create env (Handler.suffix_of audio)) as [rnd | e].
  - destruct Hfr as (-> & _ & _). destruct Hfiles as (c & Hfiles).
    cbn [Handler.world]. unfold cleaned. split.
    + intros p Hp'. assert (Hne : Handler.tmp_name env rnd (Handler.suffix_of audio) <> p)
        by congruence.
      destruct (remove_error env _); cbn; rewrite Hfiles.
      * now rewrite lookup_insert_ne.
      * now rewrite lookup_delete_ne, lookup_insert_ne.
    + intros path [= <-] Hrm Hfresh. rewrite Hrm. cbn. rewrite Hfiles.
      rewrite delete_insert_eq. now apply delete_id.
  - destruct Hfr as (-> & _). rewrite Hfiles. split; [reflexivity |].
    intros path H. discriminate.
Qed.

(** A path without a dot has no extension. *)
Lemma splitext_no_dot (p : string) :
  has_char "." p = false -> Py.splitext p = (p, "").
Proof.
  intros Hd. unfold Py.splitext, Py.rfind.
  rewrite (rfind_from_absent _ _ 0 Hd).
  destruct (rfind_from_cases "/" p 0 ltac:(lia))
    as [[-> _] | (s1 & s2 & _ & -> & _)]; [reflexivity |].
  destruct (Z.ltb_spec (0 + Z.of_nat (String.length s1)) (-1));
    [lia | reflexivity].
Qed.

(** The suffix when the filename is absent, empty or has no dot. *)
Lemma suffix_of_default (audio : UploadFile) :
  has_char "." (Py.str_or (filename audio) "") = false ->
  Handler.suffix_of audio = ".wav".
Proof.
  unfold Handler.suffix_of.
  destruct (filename audio) as [[| a name] |]; cbn [Py.str_or];
    [reflexivity | | reflexivity].
  intros Hd. now rewrite (splitext_no_dot _ Hd).
Qed.

(** X5. The staged file always carries an extension: its path ends in a
    dot followed by characters that hold neither a dot nor a [/], whatever
    the uploaded filename.  When the filename is absent, empty or has no
    dot, the path ends in the default [.wav]; for a plain name [stem.ext]
    it ends in [.ext], letter case kept. *)
Theorem staged_path_has_clean_suffix
    (env : RequestEnv) (audio : UploadFile) (w : World) (path : string) :
  Handler.staged env audio w = Some path ->
  (exists stem ext,
      path = stem ++ String "." ext
      /\ has_char "/" ext = false
      /\ has_char "." ext = false)
  /\ (has_char "." (Py.str_or (filename audio) "") = false ->
      exists stem, path = stem ++ ".wav")
  /\ (forall a name x,
        filename audio = Some (String a name ++ "." ++ x) ->
        a <> "."%char ->
        has_char "/" (String a name ++ "." ++ x) = false ->
        has_char "." x = false ->
        exists stem, path = stem ++ "." ++ x).
Proof.
  rewrite staged_cases. intros H.
  destruct (pipeline w); [| discriminate].
  destruct (Validation.validate _ _); [| discriminate].
  destruct (tmp_create env (Handler.suffix_of audio)) as [rnd |];
    [| discriminate].
  inversion H; subst. clear H.
  assert (Hpath : Handler.tmp_name env rnd (Handler.suffix_of audio)
                  = (tmp_dir env ++ "/tmp" ++ rnd) ++ Handler.suffix_of audio).
  { unfold Handler.tmp_name. now rewrite !str_app_assoc. }
  rewrite Hpath. split; [| split].
  - destruct (suffix_of_dotted audio) as (ext & -> & Hs & Hd). eauto.
  - intros Hd. rewrite (suffix_of_default audio Hd). eauto.
  - intros a name x Hfn Ha Hsep Hdot. exists (tmp_dir env ++ "/tmp" ++ rnd).
    f_equal. unfold Handler.suffix_of. rewrite Hfn.
    change (Py.str_or (Some (String a name ++ "." ++ x)) "audio")
      with (String a name ++ "." ++ x).
    now rewrite (splitext_plain a name x Ha Hsep Hdot).
Qed.

Lemma staged_path_has_clean_suffix_witness :
  exists stem, "/tmp/tmpk3x9q2ab.wav" = stem ++ ".wav".
Proof.
  exact (proj1 (proj2 (staged_path_has_clean_suffix
                         (sample_env (inl []) None)
                         {| content_type := Some "audio/wav";
                            filename := None; content := [] |}
                         loaded_world _ eq_refl)) eq_refl).
Defined.

(** X6. An upload accepted through the extension fallback (no declared
    type, or [application/octet-stream]) is staged under that same
    extension: the suffix of the staged file, lower-cased, is one of the
    allowed extensions. *)
Theorem accepted_extension_is_staged_suffix (audio : UploadFile) :
  content_type audio = None
  \/ content_type audio = Some "application/octet-stream" ->
  Validation.validate (content_type audio) (filename audio) = inl tt ->
  In (Py.lower (Handler.suffix_of audio))
     [".wav"; ".mp3"; ".m4a"; ".flac"; ".ogg"; ".aac"; ".wma"; ".opus";
      ".mp4"; ".m4v"].
Proof.
  intros Hct Hv.
  rewrite validate_generic in Hv
    by (destruct Hct as [-> | ->]; reflexivity).
  destruct (Py.mem _ Validation.audio_extensions) eqn:Hm; [| discriminate].
  apply mem_In in Hm. unfold Handler.suffix_of.
  destruct (filename audio) as [[| a fn] |]; cbn [Py.str_or] in *;
    try (vm_compute in Hm; exfalso; intuition discriminate).
  destruct (snd (Py.splitext (String a fn))) eqn:He;
    [vm_compute in Hm; exfalso; intuition discriminate | exact Hm].
Qed.

Lemma accepted_extension_is_staged_suffix_witness :
  In (Py.lower (Handler.suffix_of
                  {| content_type := None; filename := Some "Talk.FLAC";
                     content := [] |}))
     [".wav"; ".mp3"; ".m4a"; ".flac"; ".ogg"; ".aac"; ".wma"; ".opus";
      ".mp4"; ".m4v"].
Proof.
  exact (accepted_extension_is_staged_suffix
           {| content_type := None; filename := Some "Talk.FLAC";
              content := [] |} (or_introl eq_refl) eq_refl).
Defined.

(** ** Result normalisation, continued *)

Section NormalizerExtras.
Import Normalizer.

Lemma size_labels_le (l : list string) :
  size (list_to_set l : gset string) <= length l.
Proof.
  rewrite size_distinct. apply submseteq_length, NoDup_submseteq.
  - apply NoDup_remove_dups.
  - intros x. now rewrite elem_of_remove_dups.
Qed.

Lemma run_loop_speakers (turns : list RawTurn) :
  acc_speakers (run_loop turns) = list_to_set (map turn_speaker turns).
Proof. unfold run_loop. rewrite fold_step_speakers. cbn. set_solver. Qed.

End NormalizerExtras.

(** X7. The response counts what it was given: as many segments as
    turns; at most as many speakers as turns, and zero speakers exactly for
    no turn; every turn's speaker labels one of the segments; and the
    message reports the number of turns. *)
Theorem normalize_counts (turns : list RawTurn) :
  let r := Normalizer.normalize turns in
  length (segments r) = length turns
  /\ total_speakers r <= length turns
  /\ (total_speakers r = 0 <-> turns = [])
  /\ (forall t, In t turns ->
        exists s, In s (segments r) /\ seg_speaker s = turn_speaker t)
  /\ message r
     = Some ("Successfully processed "
             ++ Normalizer.str_of_nat (length turns) ++ " segments").
Proof.
  cbn zeta.
  assert (Hsp : total_speakers (Normalizer.normalize turns)
                = size (list_to_set (map turn_speaker turns) : gset string)).
  { unfold Normalizer.normalize. cbn. now rewrite run_loop_speakers. }
  rewrite normalize_segments, length_map, Hsp.
  split; [reflexivity |]. split.
  { etransitivity; [apply size_labels_le | now rewrite length_map]. }
  split; [| split].
  - rewrite size_empty_iff. destruct turns as [| t turns]; cbn.
    + split; [reflexivity | intros _; set_solver].
    + split; [intros H; exfalso; set_solver | discriminate].
  - intros t Hin. exists (Normalizer.segment_of t). split; [| reflexivity].
    now apply in_map.
  - unfold Normalizer.normalize, Normalizer.respond. cbn [message].
    change (Normalizer.acc_segments (Normalizer.run_loop turns))
      with (segments (Normalizer.normalize turns)).
    now rewrite normalize_segments, length_map.
Qed.

(** X8. Turns appended to the engine's output append their segments and
    never lower the aggregates: the speaker count of the whole is at least
    that of each part and at most their sum, and the total duration of the
    whole is below neither part's. *)
Theorem normalize_app (a b : list RawTurn) :
  let ra := Normalizer.normalize a in
  let rb := Normalizer.normalize b in
  let r := Normalizer.normalize (a ++ b) in
  segments r = (segments ra ++ segments rb)%list
  /\ total_speakers ra <= total_speakers r
  /\ total_speakers rb <= total_speakers r
  /\ total_speakers r <= total_speakers ra + total_speakers rb
  /\ (total_duration r <? total_duration ra)%float = false
  /\ (total_duration r <? total_duration rb)%float = false.
Proof.
  cbn zeta.
  assert (Hsp : forall l, total_speakers (Normalizer.normalize l)
                = size (list_to_set (map turn_speaker l) : gset string)).
  { intros l. unfold Normalizer.normalize. cbn. now rewrite run_loop_speakers. }
  rewrite !normalize_segments, !Hsp, !normalize_total, !map_app.
  rewrite list_to_set_app_L, fold_left_app.
  split; [reflexivity |].
  split; [apply subseteq_size; set_solver |].
  split; [apply subseteq_size; set_solver |].
  split.
  { rewrite size_union_alt. apply Nat.add_le_mono_l, subseteq_size.
    set_solver. }
  split.
  - apply fold_max_keeps_bound, ltb_irrefl.
  - destruct (fold_max_pick (map turn_end b) 0%float) as [-> | Hin].
    + apply fold_max_keeps_bound, fold_max_keeps_bound. reflexivity.
    + now apply fold_max_upper.
Qed.

(** ** Start-up, continued *)

Section StartupExtras.
Import Eff Startup.

(** [load_pipeline] when [from_pretrained] raises. *)
Lemma load_pipeline_unloaded env cfg w e :
  from_pretrained env checkpoint_name (used_token env) = inr e ->
  load_pipeline env cfg w
  = (inr e,
     {| pipeline := pipeline w; files := files w;
        log := (log w
                ++ [(INFO, [Str "Loading pyannote-audio pipeline..."])]
                ++ (if Py.truthy (HF_TOKEN env) then []
                    else [(WARNING,
                           [Str "HF_TOKEN not set, attempting to load without token (may fail if model requires authentication)"])])
                ++ [(ERROR, [Str ("Failed to load pipeline: "
                                  ++ str_exc e)])])%list;
        engine_calls := engine_calls w |}).
Proof.
  intros Hload. unfold used_token in Hload.
  unfold load_pipeline, load_body, try_except, bind, logger, modify, lift,
    raise.
  destruct (Py.truthy (HF_TOKEN env)); cbn; rewrite Hload; cbn;
    unfold add_log; cbn; rewrite <- !app_assoc; reflexivity.
Qed.

(** [load_pipeline] when no tunable is set. *)
Lemma load_pipeline_untuned env cfg w pl :
  from_pretrained env checkpoint_name (used_token env) = inl pl ->
  any_tunable cfg = false ->
  fst (load_pipeline env cfg w) = inl tt
  /\ same_but_log (set_pipeline (Some pl) w) (snd (load_pipeline env cfg w)).
Proof.
  intros Hload Hany. unfold used_token in Hload.
  unfold load_pipeline, load_body, try_except, bind, logger, modify, lift,
    raise, ret.
  rewrite Hany.
  destruct (Py.truthy (HF_TOKEN env)); cbn; rewrite Hload; cbn;
    repeat split.
Qed.

(** [load_pipeline] when a tunable is set: everything hangs on
    [instantiate]. *)
Lemma load_pipeline_tuned env cfg w pl :
  from_pretrained env checkpoint_name (used_token env) = inl pl ->
  any_tunable cfg = true ->
  exists merged : Hparams,
    match instantiate_error env pl merged with
    | None =>
        fst (load_pipeline env cfg w) = inl tt
        /\ pipeline (snd (load_pipeline env cfg w))
           = Some {| checkpoint := checkpoint pl; token := token pl;
                     parameters := merged |}
    | Some e => fst (load_pipeline env cfg w) = inr e
    end.
Proof.
  intros Hload Hany.
  destruct (load_pipeline_loaded env cfg w pl Hload Hany) as (w1 & _ & ->).
  destruct (overrides_spec cfg (parameters pl) w1)
    as (merged & w2 & Hrun & _).
  exists merged. unfold try_except.
  rewrite (bind_returns _ _ _ _ _ Hrun).
  unfold bind, check, modify, raise, logger.
  now destruct (instantiate_error env pl merged).
Qed.

Lemma overridden_twice old t : overridden (overridden old t) t = overridden old t.
Proof. now destruct t. Qed.

End StartupExtras.

(** X9. When [from_pretrained] raises at start-up with the pipeline unset,
    [load_pipeline] raises the same exception after logging it as its last
    line, touches neither files nor the engine, and leaves the pipeline
    unset: [health_check] reports [pipeline_loaded = false] and every
    request gets the 503. *)
Theorem failed_download_keeps_service_unavailable
    (env : StartupEnv) (cfg : Tunables) (w : World) (e : Exception) :
  pipeline w = None ->
  from_pretrained env Startup.checkpoint_name (used_token env) = inr e ->
  let out := Startup.load_pipeline env cfg w in
  fst out = inr e
  /\ pipeline (snd out) = None
  /\ files (snd out) = files w
  /\ engine_calls (snd out) = engine_calls w
  /\ last (log (snd out))
     = Some (ERROR, [Str ("Failed to load pipeline: " ++ str_exc e)])
  /\ Handler.pipeline_loaded (Handler.health_check (snd out)) = false
  /\ (forall renv audio,
        fst (Handler.process_audio renv audio (snd out))
        = inr (HTTPException 503
                 "Pipeline not loaded. Please check server logs.")).
Proof.
  intros Hp Hload. cbn zeta.
  rewrite (load_pipeline_unloaded env cfg w e Hload).
  cbn [fst snd pipeline files engine_calls log]. rewrite Hp.
  repeat split. now rewrite !app_assoc, last_snoc.
Qed.

Lemma failed_download_keeps_service_unavailable_witness :
  fst (Startup.load_pipeline
         {| HF_TOKEN := None;
            from_pretrained := fun _ _ => inr (Exc "401 Unauthorized");
            instantiate_error := fun _ _ => None |}
         tunables unloaded_world)
  = inr (Exc "401 Unauthorized").
Proof.
  exact (proj1 (failed_download_keeps_service_unavailable
                  {| HF_TOKEN := None;
                     from_pretrained := fun _ _ => inr (Exc "401 Unauthorized");
                     instantiate_error := fun _ _ => None |}
                  tunables unloaded_world (Exc "401 Unauthorized")
                  eq_refl eq_refl)).
Defined.

(** X10. When [load_pipeline] raises although [from_pretrained] returned a
    pipeline, the exception is [instantiate]'s, it is logged last, and the
    global [pipeline] stays set to the loaded pipeline (nothing is said of
    the parameters [instantiate] left it with): [health_check] reports
    [pipeline_loaded = true] although start-up failed. *)
Theorem failed_tuning_leaves_pipeline_set
    (env : StartupEnv) (cfg : Tunables) (w : World) (pl : Pipeline)
    (e : Exception) :
  from_pretrained env Startup.checkpoint_name (used_token env) = inl pl ->
  fst (Startup.load_pipeline env cfg w) = inr e ->
  let w' := snd (Startup.load_pipeline env cfg w) in
  (exists hp, pipeline w' = Some {| checkpoint := checkpoint pl;
                                    token := token pl;
                                    parameters := hp |})
  /\ Handler.pipeline_loaded (Handler.health_check w') = true
  /\ (exists hp, instantiate_error env pl hp = Some e)
  /\ last (log w')
     = Some (ERROR, [Str ("Failed to load pipeline: " ++ str_exc e)]).
Proof.
  intros Hload Hfail. cbn zeta.
  destruct (Startup.any_tunable cfg) eqn:Hany.
  2: { destruct (load_pipeline_untuned env cfg w pl Hload Hany) as [Hok _].
       rewrite Hok in Hfail. discriminate. }
  destruct (load_pipeline_loaded env cfg w pl Hload Hany)
    as (w1 & (Hp1 & _) & Hrun).
  rewrite Hrun in *. clear Hrun.
  destruct (overrides_spec cfg (parameters pl) w1)
    as (merged & w2 & Hov & (Hp2 & _) & _).
  unfold Eff.try_except in *.
  rewrite (bind_returns _ _ _ _ _ Hov) in *.
  unfold Eff.bind, Eff.check, Eff.modify, Eff.raise, Startup.logger in *.
  destruct (instantiate_error env pl merged) as [e' |] eqn:Hinst;
    cbn in Hfail; [| discriminate].
  inversion Hfail; subst e'. cbn.
  assert (Hpl : pipeline w2 = Some pl) by (rewrite Hp2, Hp1; reflexivity).
  unfold Handler.health_check. cbn. rewrite Hpl.
  split; [| repeat split; eauto; now rewrite last_snoc].
  exists (parameters pl). now destruct pl.
Qed.

Lemma failed_tuning_leaves_pipeline_set_witness :
  Handler.pipeline_loaded
    (Handler.health_check
       (snd (Startup.load_pipeline
               {| HF_TOKEN := Some "hf_token";
                  from_pretrained := fun _ _ => inl sample_loaded;
                  instantiate_error :=
                    fun _ _ => Some (Exc "unknown parameter") |}
               tunables unloaded_world)))
  = true.
Proof.
  exact (proj1 (proj2 (failed_tuning_leaves_pipeline_set
                  {| HF_TOKEN := Some "hf_token";
                     from_pretrained := fun _ _ => inl sample_loaded;
                     instantiate_error :=
                       fun _ _ => Some (Exc "unknown parameter") |}
                  tunables unloaded_world sample_loaded
                  (Exc "unknown parameter") eq_refl eq_refl))).
Defined.

(** X11. With no tunable set, [load_pipeline] never calls [instantiate]:
    it succeeds whenever [from_pretrained] does, whatever [instantiate]
    would do, and the global holds the pipeline exactly as loaded; files
    and engine trace are untouched. *)
Theorem no_tunable_no_instantiate
    (env : StartupEnv) (cfg : Tunables) (w : World) (pl : Pipeline) :
  from_pretrained env Startup.checkpoint_name (used_token env) = inl pl ->
  Startup.any_tunable cfg = false ->
  fst (Startup.load_pipeline env cfg w) = inl tt
  /\ pipeline (snd (Startup.load_pipeline env cfg w)) = Some pl
  /\ files (snd (Startup.load_pipeline env cfg w)) = files w
  /\ engine_calls (snd (Startup.load_pipeline env cfg w)) = engine_calls w.
Proof.
  intros Hload Hany.
  destruct (load_pipeline_untuned env cfg w pl Hload Hany)
    as (Hok & Hp & Hf & Hc).
  auto.
Qed.

Lemma no_tunable_no_instantiate_witness :
  fst (Startup.load_pipeline
         {| HF_TOKEN := Some "hf_token";
            from_pretrained := fun _ _ => inl sample_loaded;
            instantiate_error := fun _ _ => Some (Exc "unknown parameter") |}
         {| CLUSTERING_THRESHOLD := None; SEG_MIN_DURATION_ON := None;
            SEG_MIN_DURATION_OFF := None; SEG_THRESHOLD := None;
            SEG_ONSET := None; SEG_OFFSET := None |}
         unloaded_world)
  = inl tt.
Proof.
  exact (proj1 (no_tunable_no_instantiate
                  {| HF_TOKEN := Some "hf_token";
                     from_pretrained := fun _ _ => inl sample_loaded;
                     instantiate_error :=
                       fun _ _ => Some (Exc "unknown parameter") |}
                  {| CLUSTERING_THRESHOLD := None; SEG_MIN_DURATION_ON := None;
                     SEG_MIN_DURATION_OFF := None; SEG_THRESHOLD := None;
                     SEG_ONSET := None; SEG_OFFSET := None |}
                  unloaded_world sample_loaded eq_refl eq_refl)).
Defined.

(** X12. The two override steps never fail, and applying them to their own
    result changes nothing: the tuned parameter set is a fixed point. *)
Theorem overrides_idempotent (cfg : Tunables) (hp : Hparams) (w : World) :
  exists tuned,
    fst (Eff.bind (Startup.override_clustering cfg hp)
                  (Startup.override_segmentation cfg) w) = inl tuned
    /\ forall w',
         fst (Eff.bind (Startup.override_clustering cfg tuned)
                       (Startup.override_segmentation cfg) w') = inl tuned.
Proof.
  destruct (overrides_spec cfg hp w) as (hp1 & w1 & Hrun1 & _ & Hd1 & Hp1).
  exists hp1. split; [now rewrite Hrun1 |]. intros w'.
  destruct (overrides_spec cfg hp1 w') as (hp2 & w2 & Hrun2 & _ & Hd2 & Hp2).
  rewrite Hrun2. cbn. f_equal. apply map_eq. intros c.
  destruct (hp2 !! c) as [g2 |] eqn:H2, (hp1 !! c) as [g1 |] eqn:H1;
    try reflexivity.
  - f_equal. apply map_eq. intros k.
    pose proof (Hp2 c k) as Hk. unfold param in Hk. rewrite H2, H1 in Hk.
    rewrite Hk. pose proof (Hp1 c k) as Hk1. unfold param in Hk1.
    rewrite H1 in Hk1. rewrite Hk1.
    destruct (match hp !! c with Some g => g !! k | None => None end);
      cbn; [| reflexivity].
    now rewrite overridden_twice.
  - apply Hd2 in H1. congruence.
  - apply Hd2 in H2. congruence.
Qed.

Section ServiceFacts.

Lemma loaded_never_503 renv audio w pl e :
  pipeline w = Some pl ->
  fst (Handler.process_audio renv audio w) = inr e ->
  exists code detail,
    e = HTTPException code detail /\ (code = 400 \/ code = 500)%Z.
Proof.
  intros Hp He. unfold Handler.process_audio in He. fold (start w) in He.
  destruct (Validation.validate (content_type audio) (filename audio))
    as [[] | e'] eqn:Hv.
  2: { rewrite (frame_invalid renv audio w pl e' Hp Hv) in He.
       inversion He; subst.
       destruct (validate_raises_400 _ _ _ Hv) as (d & ->). eauto 6. }
  rewrite (frame_loaded renv audio w pl Hp Hv) in He. cbn [fst] in He.
  destruct (guarded_outcome renv pl audio w) as [(r & Hr) | (e' & Hr)];
    rewrite Hr in He; inversion He. unfold error_500. eauto 6.
Qed.

End ServiceFacts.

(** X18. When [from_pretrained] has returned a pipeline and [load_pipeline]
    then returns, the global holds that pipeline (with some parameter
    set): [health_check] reports [pipeline_loaded = true], and no later
    request gets the 503, only 400 or 500 if it fails with an
    [Exception] at all. *)
Theorem successful_load_enables_service
    (env : StartupEnv) (cfg : Tunables) (w : World) (pl : Pipeline) :
  from_pretrained env Startup.checkpoint_name (used_token env) = inl pl ->
  fst (Startup.load_pipeline env cfg w) = inl tt ->
  let w' := snd (Startup.load_pipeline env cfg w) in
  (exists hp, pipeline w' = Some {| checkpoint := checkpoint pl;
                                    token := token pl;
                                    parameters := hp |})
  /\ Handler.pipeline_loaded (Handler.health_check w') = true
  /\ (forall renv audio e,
        fst (Handler.process_audio renv audio w') = inr e ->
        exists code detail,
          e = HTTPException code detail /\ (code = 400 \/ code = 500)%Z).
Proof.
  intros Hload Hok. cbn zeta.
  assert (Hpl : exists hp, pipeline (snd (Startup.load_pipeline env cfg w))
                           = Some {| checkpoint := checkpoint pl;
                                     token := token pl;
                                     parameters := hp |}).
  { destruct (Startup.any_tunable cfg) eqn:Hany.
    - destruct (load_pipeline_tuned env cfg w pl Hload Hany)
        as (merged & Hcase).
      destruct (instantiate_error env pl merged).
      + rewrite Hcase in Hok. discriminate.
      + destruct Hcase as [_ ->]. eauto.
    - destruct (load_pipeline_untuned env cfg w pl Hload Hany)
        as (_ & -> & _). destruct pl. cbn. eauto. }
  destruct Hpl as (hp & Hp).
  split; [eauto |]. split.
  - unfold Handler.health_check. now rewrite Hp.
  - intros renv audio e. eapply loaded_never_503. exact Hp.
Qed.

Lemma successful_load_enables_service_witness :
  Handler.pipeline_loaded
    (Handler.health_check
       (snd (Startup.load_pipeline sample_startup tunables unloaded_world)))
  = true.
Proof.
  exact (proj1 (proj2 (successful_load_enables_service sample_startup
                         tunables unloaded_world sample_loaded
                         eq_refl eq_refl))).
Defined.

(** ** The download script and module initialisation *)

Section DownloadFacts.
Import Download.

Lemma truthy_Some (x : option string) :
  Py.truthy x = true <-> exists a s, x = Some (String a s).
Proof.
  destruct x as [[| a s] |]; cbn; split; try discriminate; eauto.
  - intros (? & ? & H). discriminate.
  - intros (? & ? & H). discriminate.
Qed.

(** The assignments to [HF_HOME] and [HF_HUB_CACHE] leave [HF_TOKEN]
    alone. *)
Lemma hf_token_environ (env : ScriptEnv) :
  hf_token env
  = if Py.truthy (environ env !! "HF_TOKEN") then environ env !! "HF_TOKEN"
    else argv1 (argv env).
Proof.
  unfold hf_token, Init.download_environ.
  now rewrite !lookup_insert_ne by discriminate.
Qed.

End DownloadFacts.

(** The script run with an empty [HF_TOKEN] and a token on the command
    line: the command line is used. *)
Example run_sample_script :
  Download.run sample_script
  = ([Download.Printed "Logging in to HuggingFace Hub...";
      Download.Login "hf_abc";
      Download.Printed "Downloading pyannote speaker diarization model...";
      Download.FromPretrained "pyannote/speaker-diarization-community-1"
        "hf_abc";
      Download.Printed "Model downloaded successfully!"],
     Download.Completed).
Proof. vm_compute. reflexivity. Qed.

(** X13. [download_model.py] prints the error and exits with status 1,
    attempting neither login nor download, exactly when [HF_TOKEN] is unset
    or empty and the first command-line argument is missing or empty. *)
Theorem download_without_token_exits (env : Download.ScriptEnv) :
  (Py.truthy (Download.environ env !! "HF_TOKEN") = false
   /\ Py.truthy (Download.argv1 (Download.argv env)) = false)
  <-> Download.run env
      = ([Download.Printed "ERROR: HF_TOKEN not provided"],
         Download.Exited 1).
Proof.
  unfold Download.run. rewrite hf_token_environ.
  destruct (Py.truthy (Download.environ env !! "HF_TOKEN")) eqn:He.
  - apply truthy_Some in He. destruct He as (a & s & ->).
    split; [intros [? _]; discriminate |].
    destruct (Download.login_error env _); [discriminate |].
    destruct (Download.download_error env _ _); discriminate.
  - destruct (Download.argv1 (Download.argv env)) as [[| a s] |]; cbn;
      try tauto.
    split; [intros [_ ?]; discriminate |].
    destruct (Download.login_error env _); [discriminate |].
    destruct (Download.download_error env _ _); discriminate.
Qed.

(** X14. In [download_model.py] a non-empty [HF_TOKEN] wins over the
    command line; every login uses the chosen, non-empty token; and a
    download is attempted only for the fixed checkpoint, with that same
    token, after a login with it succeeded. *)
Theorem download_uses_one_token (env : Download.ScriptEnv) :
  (forall a s,
      Download.environ env !! "HF_TOKEN" = Some (String a s) ->
      Download.hf_token env = Some (String a s))
  /\ (forall tok,
        In (Download.Login tok) (fst (Download.run env)) ->
        Download.hf_token env = Some tok /\ tok <> "")
  /\ (forall ck tok,
        In (Download.FromPretrained ck tok) (fst (Download.run env)) ->
        ck = "pyannote/speaker-diarization-community-1"
        /\ Download.hf_token env = Some tok
        /\ tok <> ""
        /\ Download.login_error env tok = None
        /\ In (Download.Login tok) (fst (Download.run env))).
Proof.
  split; [| split].
  - intros a s He. rewrite hf_token_environ, He. reflexivity.
  - intros tok. unfold Download.run.
    destruct (Download.hf_token env) as [[| a s] |];
      try (cbn; intuition discriminate).
    destruct (Download.login_error env _);
      [| destruct (Download.download_error env _ _)]; cbn;
      intros H; repeat (destruct H as [H | H]; try discriminate);
      try contradiction; inversion H; subst; split; congruence.
  - intros ck tok. unfold Download.run.
    destruct (Download.hf_token env) as [[| a s] |];
      try (cbn; intuition discriminate).
    destruct (Download.login_error env _) eqn:Hl;
      [| destruct (Download.download_error env _ _)]; cbn;
      intros H; repeat (destruct H as [H | H]; try discriminate);
      try contradiction; inversion H; subst;
      repeat split; try congruence; auto.
Qed.

(** X15. [download_model.py] runs to its end exactly when a non-empty token
    was found and both the login and the download succeeded; and the
    success line is printed exactly then. *)
Theorem download_completes_iff (env : Download.ScriptEnv) :
  (snd (Download.run env) = Download.Completed
   <-> exists tok,
         Download.hf_token env = Some tok
         /\ tok <> ""
         /\ Download.login_error env tok = None
         /\ Download.download_error env
              "pyannote/speaker-diarization-community-1" tok = None)
  /\ (In (Download.Printed "Model downloaded successfully!")
         (fst (Download.run env))
      <-> snd (Download.run env) = Download.Completed).
Proof.
  unfold Download.run.
  destruct (Download.hf_token env) as [[| a s] |];
    [| destruct (Download.login_error env _) eqn:Hl;
       [| destruct (Download.download_error env _ _) eqn:Hd] |];
    cbn; (split; split; intros H);
    try discriminate; try reflexivity;
    try (destruct H as (tok & Htok & Hne & Hl' & Hd');
         inversion Htok; subst; congruence);
    try (repeat (destruct H as [H | H]; try discriminate); contradiction).
  - exists (String a s). repeat split; auto.
  - do 4 right. now left.
Qed.

Section InitFacts.
Import Init.

Lemma lookup_setdefault (k v k' : string) (environ : Environ) :
  setdefault k v environ !! k'
  = match environ !! k' with
    | Some x => Some x
    | None => if String.eqb k k' then Some v else None
    end.
Proof.
  unfold setdefault. destruct (String.eqb_spec k k') as [<- | Hne].
  - destruct (environ !! k) eqn:Hk; cbn;
      [exact Hk | now rewrite lookup_insert_eq].
  - destruct (environ !! k); cbn; [now destruct (environ !! k') |].
    rewrite lookup_insert_ne by exact Hne. now destruct (environ !! k').
Qed.

End InitFacts.

(** X16. [app.py] never changes an environment variable that is set, while
    [download_model.py] always points [HF_HOME] and [HF_HUB_CACHE] at the
    baked-in cache; when either variable is unset the two agree on it; no
    other variable is touched; and running [app.py]'s initialisation twice,
    or after the download script's, changes nothing more. *)
Theorem cache_location_agrees (environ : Init.Environ) :
  (forall k v, environ !! k = Some v -> Init.app_environ environ !! k = Some v)
  /\ (forall k, k = "HF_HOME" \/ k = "HF_HUB_CACHE" ->
        Init.download_environ environ !! k = Some Init.cache_dir
        /\ (environ !! k = None ->
            Init.app_environ environ !! k = Some Init.cache_dir))
  /\ (forall k, k <> "HF_HOME" -> k <> "HF_HUB_CACHE" ->
        Init.app_environ environ !! k = environ !! k
        /\ Init.download_environ environ !! k = environ !! k)
  /\ Init.app_environ (Init.app_environ environ) = Init.app_environ environ
  /\ Init.app_environ (Init.download_environ environ)
     = Init.download_environ environ.
Proof.
  assert (Happ : forall e k,
             Init.app_environ e !! k
             = match e !! k with
               | Some x => Some x
               | None => if String.eqb "HF_HUB_CACHE" k || String.eqb "HF_HOME" k
                         then Some Init.cache_dir else None
               end).
  { intros e k. unfold Init.app_environ. rewrite !lookup_setdefault.
    destruct (e !! k); [reflexivity |].
    destruct (String.eqb "HF_HOME" k), (String.eqb "HF_HUB_CACHE" k);
      reflexivity. }
  split; [| split; [| split; [| split]]].
  - intros k v Hk. now rewrite Happ, Hk.
  - intros k [-> | ->]; (split; [| intros Hk; now rewrite Happ, Hk]);
      unfold Init.download_environ.
    + rewrite lookup_insert_ne by discriminate. apply lookup_insert_eq.
    + apply lookup_insert_eq.
  - intros k H1 H2. split.
    + rewrite Happ. destruct (environ !! k); [reflexivity |].
      destruct (String.eqb_spec "HF_HUB_CACHE" k); [congruence |].
      destruct (String.eqb_spec "HF_HOME" k); [congruence | reflexivity].
    + unfold Init.download_environ. now rewrite !lookup_insert_ne by congruence.
  - apply map_eq. intros k. rewrite (Happ (Init.app_environ environ)).
    rewrite Happ. destruct (environ !! k); [reflexivity |].
    now destruct (_ || _).
  - apply map_eq. intros k. rewrite Happ.
    destruct (Init.download_environ environ !! k) eqn:Hk; [reflexivity |].
    unfold Init.download_environ in Hk.
    destruct (String.eqb_spec "HF_HUB_CACHE" k) as [<- | H1].
    { now rewrite lookup_insert_eq in Hk. }
    destruct (String.eqb_spec "HF_HOME" k) as [<- | H2]; [| reflexivity].
    now rewrite lookup_insert_ne, lookup_insert_eq in Hk.
Qed.

(** X17. The patched [torch.load] is blind to the caller's [weights_only]:
    two calls whose keyword arguments differ at most there give the same
    result, and the original loader always sees [weights_only = False]
    with every other keyword argument as passed. *)
Theorem patched_load_ignores_weights_only {V R : Type} (py_false : V)
    (original : list V -> gmap string V -> R)
    (args : list V) (kwargs kwargs' : gmap string V) :
  (forall k, k <> "weights_only" -> kwargs !! k = kwargs' !! k) ->
  Init.patched_torch_load py_false original args kwargs
  = Init.patched_torch_load py_false original args kwargs'
  /\ exists seen,
       Init.patched_torch_load py_false original args kwargs
       = original args seen
       /\ seen !! "weights_only" = Some py_false
       /\ forall k, k <> "weights_only" -> seen !! k = kwargs !! k.
Proof.
  intros Hsame. unfold Init.patched_torch_load. split.
  - f_equal. apply map_eq. intros k.
    destruct (String.eqb_spec "weights_only" k) as [<- | Hne].
    + now rewrite !lookup_insert_eq.
    + rewrite !lookup_insert_ne by exact Hne. apply Hsame. congruence.
  - eexists. split; [reflexivity |]. split.
    + apply lookup_insert_eq.
    + intros k Hne. now rewrite lookup_insert_ne by congruence.
Qed.

Lemma patched_load_ignores_weights_only_witness :
  Init.patched_torch_load false (fun _ kw => kw !! "weights_only") [true]
    {[ "weights_only" := true ]}
  = Init.patched_torch_load false (fun _ kw => kw !! "weights_only") [true]
      (∅ : gmap string bool).
Proof.
  refine (proj1 (patched_load_ignores_weights_only false
                   (fun _ kw => kw !! "weights_only") [true]
                   {[ "weights_only" := true ]} ∅ _)).
  intros k Hk. now rewrite lookup_singleton_ne, lookup_empty by congruence.
Defined.
